(** * parse_metrics.py: parse a perf dump, derive rates, print a table,
      append a CSV row

    Shallow embedding of [src/parse_metrics.py] and the properties its
    specification states about it.

    Modelling conventions.
    - A Python [str] is a [string]; a character stands for the code point
      with the same number (U+0000 to U+00FF).  On that range the character
      classes used by [str.strip], [str.splitlines] and [int] are the ones
      written out below.
    - A Python [int] is a [Z]; a Python [float] is a binary64 value of
      [SpecFloat.spec_float], and [/] on two [int]s is the correctly rounded
      division [SFdiv].
    - The dict built by [parse_kv_lines] is a [gmap string mval].
    - An exception that leaves [main] is the [Raise] branch of [result].
    - The CSV file is the list of the records handed to [csv.DictWriter];
      a path that holds no file is [None]. *)

From Stdlib Require Import ZArith Ascii String List Bool Lia.
From Stdlib Require Import SpecFloat.
From stdpp Require Import gmap strings pretty.

Local Open Scope string_scope.
Local Open Scope list_scope.
Local Open Scope Z_scope.


(** * Part I: the program *)

(** ** Characters *)

Definition code (c : ascii) : N := N_of_ascii c.

Definition in_range (lo hi : N) (c : ascii) : bool :=
  (lo <=? code c)%N && (code c <=? hi)%N.

(** Whitespace of [str.strip()]: TAB..CR, FS..US, space, NEL, NBSP. *)
Definition is_whitespace (c : ascii) : bool :=
  in_range 9 13 c || in_range 28 32 c || in_range 133 133 c
  || in_range 160 160 c.

(** Line boundaries of [str.splitlines()]: LF, VT, FF, CR, FS, GS, RS, NEL. *)
Definition is_linebreak (c : ascii) : bool :=
  in_range 10 13 c || in_range 28 30 c || in_range 133 133 c.

(** Whitespace skipped by [int(str)] around the literal. *)
Definition is_int_space (c : ascii) : bool :=
  in_range 9 13 c || in_range 32 32 c || in_range 133 133 c
  || in_range 160 160 c.

Definition CR : ascii := ascii_of_N 13.

Definition LF : ascii := ascii_of_N 10.

Definition digit_val (c : ascii) : option Z :=
  if in_range 48 57 c then Some (Z.of_N (code c) - 48) else None.


(** ** Strings: [strip], [splitlines], [startswith], [split("=", 1)] *)

Fixpoint lstrip_by (ws : ascii -> bool) (s : string) : string :=
  match s with
  | EmptyString => EmptyString
  | String c s' => if ws c then lstrip_by ws s' else s
  end.

Fixpoint rstrip_by (ws : ascii -> bool) (s : string) : string :=
  match s with
  | EmptyString => EmptyString
  | String c s' =>
      match rstrip_by ws s' with
      | EmptyString => if ws c then EmptyString else String c EmptyString
      | r => String c r
      end
  end.

Definition strip (s : string) : string :=
  rstrip_by is_whitespace (lstrip_by is_whitespace s).

(** [text.splitlines()]: a CR LF pair is one boundary, the boundaries are
    dropped, and a final boundary does not open an empty last line. *)
Fixpoint splitlines (s : string) : list string :=
  match s with
  | EmptyString => []
  | String c s' =>
      if is_linebreak c then
        EmptyString ::
          (if Ascii.eqb c CR then
             match s' with
             | String c' s'' => if Ascii.eqb c' LF then splitlines s''
                                else splitlines s'
             | EmptyString => []
             end
           else splitlines s')
      else
        match splitlines s' with
        | [] => [String c EmptyString]
        | l :: ls => String c l :: ls
        end
  end.

(** [line.startswith("#")] *)
Definition startswith_hash (s : string) : bool :=
  match s with
  | String c _ => Ascii.eqb c "#"
  | EmptyString => false
  end.

(** [line.split("=", 1)] under the guard ["=" in line]: [None] when the
    line has no ['='], otherwise the text before and after the first one. *)
Fixpoint split_eq (s : string) : option (string * string) :=
  match s with
  | EmptyString => None
  | String c s' =>
      if Ascii.eqb c "=" then Some (EmptyString, s')
      else match split_eq s' with
           | Some (k, v) => Some (String c k, v)
           | None => None
           end
  end.


(** ** [int(val)] on a string

    Optional surrounding whitespace, an optional sign, then decimal digits
    in which single underscores may separate digits.  A literal of more
    than [int_max_str_digits] digits is refused (the interpreter's default
    limit on integer strings); every refusal is a [ValueError], here
    [None]. *)

Definition int_max_str_digits : nat := 4300.

Fixpoint int_digits (acc : Z) (cnt : nat) (after_us : bool) (s : string)
  : option (Z * nat) :=
  match s with
  | EmptyString => if after_us then None else Some (acc, cnt)
  | String c s' =>
      match digit_val c with
      | Some d => int_digits (10 * acc + d) (S cnt) false s'
      | None =>
          if Ascii.eqb c "_" && negb after_us then int_digits acc cnt true s'
          else None
      end
  end.

Definition int_body (s : string) : option Z :=
  match s with
  | EmptyString => None
  | String c s' =>
      match digit_val c with
      | None => None
      | Some d =>
          match int_digits d 1 false s' with
          | Some (n, cnt) =>
              if (cnt <=? int_max_str_digits)%nat then Some n else None
          | None => None
          end
      end
  end.

Definition py_int (s : string) : option Z :=
  match rstrip_by is_int_space (lstrip_by is_int_space s) with
  | String c r =>
      if Ascii.eqb c "+" then int_body r
      else if Ascii.eqb c "-" then Z.opp <$> int_body r
      else int_body (String c r)
  | EmptyString => None
  end.


(** ** [parse_kv_lines] *)

(** A value stored by [parse_kv_lines]: an [int], or the raw [str]. *)
Inductive mval :=
  | MInt (n : Z)
  | MStr (s : string).

#[global] Instance mval_eq_dec : EqDecision mval.
Proof. solve_decision. Defined.

(** One iteration of the [for line in text.splitlines()] loop. *)
Definition parse_line (data : gmap string mval) (line : string)
  : gmap string mval :=
  let line := strip line in
  if bool_decide (line = EmptyString) || startswith_hash line then data
  else
    match split_eq line with
    | None => data
    | Some (key, val) =>
        let key := strip key in
        let val := strip val in
        match py_int val with
        | Some n => <[key := MInt n]> data
        | None => <[key := MStr val]> data
        end
    end.

Definition parse_lines (lines : list string) : gmap string mval :=
  foldl parse_line ∅ lines.

Definition parse_kv_lines (text : string) : gmap string mval :=
  parse_lines (splitlines text).


(** ** Exceptions *)

Inductive exn := TypeError | ZeroDivisionError | OverflowError.

Inductive result (A : Type) :=
  | Ok (a : A)
  | Raise (e : exn).

Arguments Ok {A} a.

Arguments Raise {A} e.

#[global] Instance result_bind : MBind result := fun A B k x =>
  match x with
  | Ok a => k a
  | Raise e => Raise e
  end.


(** ** Arithmetic on the values a field can hold, [safe_div] *)

(** [a + b]: integer addition, string concatenation, [TypeError] when the
    operands are mixed. *)
Definition py_add (a b : mval) : result mval :=
  match a, b with
  | MInt x, MInt y => Ok (MInt (x + y))
  | MStr x, MStr y => Ok (MStr (x +:+ y))
  | _, _ => Raise TypeError
  end.

(** Truth value of [d] in [if d]. *)
Definition truthy (d : mval) : bool :=
  match d with
  | MInt n => negb (n =? 0)
  | MStr s => negb (bool_decide (s = EmptyString))
  end.

(** The integer [n] as an (unnormalised) binary float [n * 2^0]. *)
Definition Z2SF (n : Z) : spec_float :=
  match n with
  | Z0 => S754_zero false
  | Zpos p => S754_finite false p 0
  | Zneg p => S754_finite true p 0
  end.

(** The binary64 value nearest to [n / d] (ties to even); an infinity when
    the quotient is out of range. *)
Definition fdiv (n d : Z) : spec_float := SFdiv 53 1024 (Z2SF n) (Z2SF d).

(** [n / d] on two [int]s: true division. *)
Definition int_true_div (n d : Z) : result spec_float :=
  if d =? 0 then Raise ZeroDivisionError
  else
    match fdiv n d with
    | S754_infinity _ | S754_nan => Raise OverflowError
    | q => Ok q
    end.

(** [n / d]: defined on two [int]s only. *)
Definition py_truediv (n d : mval) : result spec_float :=
  match n, d with
  | MInt x, MInt y => int_true_div x y
  | _, _ => Raise TypeError
  end.

Definition safe_div (n d : mval) : result (option spec_float) :=
  if truthy d then q ← py_truediv n d; Ok (Some q) else Ok None.


(** ** Formatting: [str], [fmt_rate] *)

(** [str(v)] as used by the f-strings of the table. *)
Definition py_str (v : mval) : string :=
  match v with
  | MInt n => pretty n
  | MStr s => s
  end.

(** [num / den] rounded to the nearest integer, ties to even
    ([den > 0]). *)
Definition round_half_even_div (num den : Z) : Z :=
  let q := num / den in
  match (2 * (num mod den) ?= den) with
  | Lt => q
  | Gt => q + 1
  | Eq => if Z.even q then q else q + 1
  end.

Fixpoint zeros (n : nat) : string :=
  match n with
  | O => EmptyString
  | S n' => String "0" (zeros n')
  end.

Definition pad4 (n : Z) : string :=
  let s := pretty n in zeros (4 - String.length s) +:+ s.

(** The value [m * 2^e], signed by [neg], in fixed notation with four
    decimals, rounded to nearest with ties to even. *)
Definition fixed4 (neg : bool) (m e : Z) : string :=
  let r := if 0 <=? e then m * 10000 * 2 ^ e
           else round_half_even_div (m * 10000) (2 ^ (- e)) in
  (if neg then "-" else EmptyString)
  +:+ pretty (r / 10000) +:+ "." +:+ pad4 (r mod 10000).

(** [f"{x:.4f}"] *)
Definition format_4f (x : spec_float) : string :=
  match x with
  | S754_zero s => fixed4 s 0 0
  | S754_finite s m e => fixed4 s (Zpos m) e
  | S754_infinity s => if s then "-inf" else "inf"
  | S754_nan => "nan"
  end.

Definition fmt_rate (x : option spec_float) : string :=
  match x with
  | None => "N/A"
  | Some f => format_4f f
  end.


(** ** [main] *)

(** The nine local variables read from the dict. *)
Record fields := {
  total_reads : mval;
  read_hits : mval;
  read_misses : mval;
  total_writes : mval;
  write_hits : mval;
  write_misses : mval;
  coherency_invalidates : mval;
  cycles : mval;
  cycles_bus_busy : option mval
}.

(** [d.get(key, default)] *)
Definition get (d : gmap string mval) (key : string) (dflt : mval) : mval :=
  default dflt (d !! key).

Definition load_fields (d : gmap string mval) : fields := {|
  total_reads := get d "total_reads" (MInt 0);
  read_hits := get d "read_hits" (MInt 0);
  read_misses := get d "read_misses" (MInt 0);
  total_writes := get d "total_writes" (MInt 0);
  write_hits := get d "write_hits" (MInt 0);
  write_misses := get d "write_misses" (MInt 0);
  coherency_invalidates := get d "coherency_invalidates" (MInt 0);
  cycles := get d "cycles" (MInt 0);
  cycles_bus_busy := d !! "cycles_bus_busy"
|}.

Record rates := {
  cache_hit_rate : option spec_float;
  cache_miss_rate : option spec_float;
  coherency_miss_rate : option spec_float;
  bus_utilization : option spec_float
}.

(** [safe_div(cycles_bus_busy, cycles) if cycles_bus_busy is not None
    else None] *)
Definition bus_utilization_of (f : fields) : result (option spec_float) :=
  match cycles_bus_busy f with
  | Some b => safe_div b (cycles f)
  | None => Ok None
  end.

Definition compute_rates (f : fields) : result rates :=
  total_accesses ← py_add (total_reads f) (total_writes f);
  total_hits ← py_add (read_hits f) (write_hits f);
  total_misses ← py_add (read_misses f) (write_misses f);
  hit ← safe_div total_hits total_accesses;
  miss ← safe_div total_misses total_accesses;
  coh ← safe_div (coherency_invalidates f) (total_reads f);
  bus ← bus_utilization_of f;
  Ok {| cache_hit_rate := hit; cache_miss_rate := miss;
        coherency_miss_rate := coh; bus_utilization := bus |}.

Definition rule : string := "--------------------------------------".

(** The lines printed on standard output, in order. *)
Definition table (f : fields) (r : rates) : list string :=
  [ "Metric                       Value"; rule;
    "total_reads                 " +:+ py_str (total_reads f);
    "read_hits                   " +:+ py_str (read_hits f);
    "read_misses                 " +:+ py_str (read_misses f);
    "total_writes                " +:+ py_str (total_writes f);
    "write_hits                  " +:+ py_str (write_hits f);
    "write_misses                " +:+ py_str (write_misses f);
    "coherency_invalidates       " +:+ py_str (coherency_invalidates f);
    "cycles                      " +:+ py_str (cycles f) ]
  ++ match cycles_bus_busy f with
     | Some b => [ "cycles_bus_busy             " +:+ py_str b ]
     | None => []
     end
  ++ [ rule;
       "cache_hit_rate              " +:+ fmt_rate (cache_hit_rate r);
       "cache_miss_rate             " +:+ fmt_rate (cache_miss_rate r);
       "coherency_miss_rate         " +:+ fmt_rate (coherency_miss_rate r);
       "bus_utilization             " +:+ fmt_rate (bus_utilization r) ].

(** A value handed to the csv writer. *)
Inductive cell :=
  | CInt (n : Z)
  | CStr (s : string)
  | CFloat (x : spec_float).

#[global] Instance spec_float_eq_dec : EqDecision spec_float.
Proof. solve_decision. Defined.

#[global] Instance cell_eq_dec : EqDecision cell.
Proof. solve_decision. Defined.

Definition cell_of_mval (v : mval) : cell :=
  match v with
  | MInt n => CInt n
  | MStr s => CStr s
  end.

(** [x if x is not None else ''], with the empty string for [None]. *)
Definition cell_of_opt {A} (to_cell : A -> cell) (x : option A) : cell :=
  match x with
  | Some a => to_cell a
  | None => CStr EmptyString
  end.

Definition fieldnames : list string :=
  [ "total_reads"; "read_hits"; "read_misses";
    "total_writes"; "write_hits"; "write_misses";
    "coherency_invalidates"; "cycles"; "cycles_bus_busy";
    "cache_hit_rate"; "cache_miss_rate";
    "coherency_miss_rate"; "bus_utilization" ].

(** The dict [row]. *)
Definition row (f : fields) (r : rates) : gmap string cell :=
  list_to_map
    [ ("total_reads", cell_of_mval (total_reads f));
      ("read_hits", cell_of_mval (read_hits f));
      ("read_misses", cell_of_mval (read_misses f));
      ("total_writes", cell_of_mval (total_writes f));
      ("write_hits", cell_of_mval (write_hits f));
      ("write_misses", cell_of_mval (write_misses f));
      ("coherency_invalidates", cell_of_mval (coherency_invalidates f));
      ("cycles", cell_of_mval (cycles f));
      ("cycles_bus_busy", cell_of_opt cell_of_mval (cycles_bus_busy f));
      ("cache_hit_rate", cell_of_opt CFloat (cache_hit_rate r));
      ("cache_miss_rate", cell_of_opt CFloat (cache_miss_rate r));
      ("coherency_miss_rate", cell_of_opt CFloat (coherency_miss_rate r));
      ("bus_utilization", cell_of_opt CFloat (bus_utilization r)) ].

(** The CSV file is the list of records written so far; [None] is a path
    at which no file exists. *)
Definition csv_file : Type := list (list cell).

(** [csv.DictWriter(f, fieldnames=names)]: [writeheader] writes the names,
    [writerow] the values of the dict in the order of the names, the empty
    string for a missing key. *)
Definition writeheader (names : list string) : list cell := CStr <$> names.

Definition writerow (names : list string) (rowdict : gmap string cell)
  : list cell :=
  (fun k => default (CStr EmptyString) (rowdict !! k)) <$> names.

(** [main]: [text] is the content of the input file, [csv] what is at the
    CSV path before the call.  The result is the printed lines and the file
    after the call; an exception leaves before anything is printed or
    written. *)
Definition main (text : string) (csv : option csv_file)
  : result (list string * csv_file) :=
  let d := parse_kv_lines text in
  let f := load_fields d in
  r ← compute_rates f;
  let out := table f r in
  let write_header := bool_decide (csv = None) in
  Ok (out,
      (default [] csv
       ++ (if write_header then [writeheader fieldnames] else [])
       ++ [writerow fieldnames (row f r)])%list).


(** * Part II: vocabulary of the specification *)

(** ** Input texts and runs *)

Definition nl : string := String LF EmptyString.

Definition lines_text (ls : list string) : string :=
  foldr (fun l t => l +:+ nl +:+ t) EmptyString ls.

Definition spec_example : string :=
  lines_text [ "total_reads=100"; "read_hits=80"; "read_misses=20";
               "total_writes=50"; "write_hits=45"; "write_misses=5";
               "coherency_invalidates=10"; "cycles=10000";
               "cycles_bus_busy=2500" ].

(** The value of a run that completed. *)
Definition completed {A} (dflt : A) (x : result A) : A :=
  match x with
  | Ok a => a
  | Raise _ => dflt
  end.

Definition first_run : list string * csv_file :=
  completed ([], []) (main spec_example None).

Definition second_run : list string * csv_file :=
  completed ([], []) (main (lines_text ["total_reads=0"]) (Some first_run.2)).


(** ** The parser, as the specification describes it *)

Fixpoint has_eq (s : string) : bool :=
  match s with
  | EmptyString => false
  | String c s' => Ascii.eqb c "=" || has_eq s'
  end.

(** The text before the first ['='] and the text after it. *)
Fixpoint before_eq (s : string) : string :=
  match s with
  | EmptyString => EmptyString
  | String c s' => if Ascii.eqb c "=" then EmptyString
                   else String c (before_eq s')
  end.

Fixpoint after_eq (s : string) : string :=
  match s with
  | EmptyString => EmptyString
  | String c s' => if Ascii.eqb c "=" then s' else after_eq s'
  end.

(** A trimmed line that contributes nothing: empty, a comment, or without
    a separator. *)
Definition skipped (l : string) : bool :=
  bool_decide (l = EmptyString) || startswith_hash l || negb (has_eq l).

(** The stored form of a trimmed value. *)
Definition stored_value (v : string) : mval :=
  match py_int v with
  | Some n => MInt n
  | None => MStr v
  end.

Definition entry_of_trimmed (l : string) : string * mval :=
  (strip (before_eq l), stored_value (strip (after_eq l))).

(** The key-value pairs of a list of lines, in order of occurrence. *)
Definition spec_entries (lines : list string) : list (string * mval) :=
  let trimmed := strip <$> lines in
  let kept := filter (fun l => skipped l = false) trimmed in
  entry_of_trimmed <$> kept.

(** The value of [key]: that of its last occurrence. *)
Definition spec_parse (text : string) (key : string) : option mval :=
  snd <$> last (filter (fun e => e.1 = key) (spec_entries (splitlines text))).

(** What one line contributes. *)
Definition line_entry (line : string) : option (string * mval) :=
  if skipped (strip line) then None else Some (entry_of_trimmed (strip line)).


(** ** Comment lines, blank lines, line boundaries *)

(** A blank line, or a line whose first non-whitespace character is ['#']. *)
Definition ignorable (l : string) : bool :=
  bool_decide (strip l = EmptyString) || startswith_hash (strip l).

Definition starts_with_LF (s : string) : bool :=
  match s with
  | String c _ => Ascii.eqb c LF
  | EmptyString => false
  end.

Definition no_linebreak (s : string) : bool :=
  forallb (fun c => negb (is_linebreak c)) (list_ascii_of_string s).


(** ** Known and unknown keys *)

Definition known_keys : list string :=
  [ "total_reads"; "read_hits"; "read_misses"; "total_writes"; "write_hits";
    "write_misses"; "coherency_invalidates"; "cycles"; "cycles_bus_busy" ].

Definition numeric_keys : list string :=
  [ "total_reads"; "read_hits"; "read_misses"; "total_writes"; "write_hits";
    "write_misses"; "coherency_invalidates"; "cycles" ].

(** The numeric local variable of [main] named [key]. *)
Definition field (key : string) (f : fields) : option mval :=
  (list_to_map
     [ ("total_reads", total_reads f); ("read_hits", read_hits f);
       ("read_misses", read_misses f); ("total_writes", total_writes f);
       ("write_hits", write_hits f); ("write_misses", write_misses f);
       ("coherency_invalidates", coherency_invalidates f);
       ("cycles", cycles f) ] : gmap string mval) !! key.

(** A key-value line whose trimmed key is none of the known names. *)
Definition unknown_key_line (l : string) : bool :=
  match line_entry l with
  | Some (k, _) => negb (bool_decide (k ∈ known_keys))
  | None => false
  end.

(** The lines left when every line with an unknown key is deleted. *)
Definition without_unknown (ls : list string) : list string :=
  filter (fun l => unknown_key_line l = false) ls.

(** Two records agree on the known keys. *)
Definition agree (d1 d2 : gmap string mval) : Prop :=
  forall k, k ∈ known_keys -> d1 !! k = d2 !! k.


(** ** Integer-valued records and their rates *)

(** The key holds a raw string. *)
Definition is_raw (v : option mval) : bool :=
  match v with
  | Some (MStr _) => true
  | _ => false
  end.

(** No known key holds a raw string. *)
Definition integer_valued (d : gmap string mval) : bool :=
  forallb (fun k => negb (is_raw (d !! k))) known_keys.

(** The integer under [key], 0 when the key is absent. *)
Definition int_of (d : gmap string mval) (key : string) : Z :=
  match d !! key with
  | Some (MInt n) => n
  | _ => 0
  end.

(** [n / d] if [d != 0] else null, on integers. *)
Definition ratio (n d : Z) : result (option spec_float) :=
  if d =? 0 then Ok None else q ← int_true_div n d; Ok (Some q).

Definition float_one : spec_float := S754_finite false 4503599627370496 (-52).

(** The real number denoted by [x] is the quotient [n / d]. *)
Definition exact_quotient (x : spec_float) (n d : Z) : Prop :=
  match x with
  | S754_zero _ => n = 0
  | S754_finite s m e =>
      (if s then Z.neg m else Z.pos m) * 2 ^ Z.max e 0 * d
      = n * 2 ^ Z.max (- e) 0
  | _ => False
  end.


(** ** The columns of the CSV file *)

(** The thirteen columns, each name with the value written under it. *)
Definition csv_columns (f : fields) (r : rates) : list (string * cell) :=
  [ ("total_reads", cell_of_mval (total_reads f));
    ("read_hits", cell_of_mval (read_hits f));
    ("read_misses", cell_of_mval (read_misses f));
    ("total_writes", cell_of_mval (total_writes f));
    ("write_hits", cell_of_mval (write_hits f));
    ("write_misses", cell_of_mval (write_misses f));
    ("coherency_invalidates", cell_of_mval (coherency_invalidates f));
    ("cycles", cell_of_mval (cycles f));
    ("cycles_bus_busy",
      match cycles_bus_busy f with
      | Some b => cell_of_mval b | None => CStr EmptyString end);
    ("cache_hit_rate",
      match cache_hit_rate r with
      | Some x => CFloat x | None => CStr EmptyString end);
    ("cache_miss_rate",
      match cache_miss_rate r with
      | Some x => CFloat x | None => CStr EmptyString end);
    ("coherency_miss_rate",
      match coherency_miss_rate r with
      | Some x => CFloat x | None => CStr EmptyString end);
    ("bus_utilization",
      match bus_utilization r with
      | Some x => CFloat x | None => CStr EmptyString end) ].


(** ** Vocabulary of the further properties *)

(** Every character of [s] satisfies [p]. *)
Fixpoint all_chars (p : ascii -> bool) (s : string) : bool :=
  match s with
  | EmptyString => true
  | String c s' => p c && all_chars p s'
  end.

(** [s] does not begin with a character of [ws]. *)
Definition clean_start (ws : ascii -> bool) (s : string) : bool :=
  match s with
  | String c _ => negb (ws c)
  | EmptyString => true
  end.

(** What [parse_kv_lines] keeps for every entry: the key is trimmed, has no
    ['='] and does not begin with ['#']; a raw string is trimmed and is not
    an integer literal. *)
Definition well_formed_entry (k : string) (v : mval) : Prop :=
  strip k = k /\ has_eq k = false /\ startswith_hash k = false
  /\ match v with
     | MStr s => strip s = s /\ py_int s = None
     | MInt _ => True
     end.

(** The lines [ls], each followed by the line ending [sep]. *)
Definition join_lines (sep : string) (ls : list string) : string :=
  foldr (fun l t => l +:+ sep +:+ t) EmptyString ls.

Definition crlf : string := String CR (String LF EmptyString).

Definition cr : string := String CR EmptyString.

(** One invocation of the tool on the CSV path: a run that raises leaves
    the path as it was, since the file is opened only after the rates are
    computed. *)
Definition invoke (csv : option csv_file) (text : string) : option csv_file :=
  match main text csv with
  | Ok (_, csv') => Some csv'
  | Raise _ => csv
  end.

(** The run on [text] reaches the end of [main]. *)
Definition completes (text : string) : bool :=
  match compute_rates (load_fields (parse_kv_lines text)) with
  | Ok _ => true
  | Raise _ => false
  end.

(** A header row followed by data rows of 13 cells. *)
Definition headed_table (rows : csv_file) (n : nat) : Prop :=
  exists data, rows = writeheader fieldnames :: data
               /\ length data = n
               /\ Forall (fun r => length r = 13%nat) data.

(** The table printed when every counter is 0 and no bus data is given. *)
Definition zero_table : list string :=
  [ "Metric                       Value"; rule;
    "total_reads                 0";
    "read_hits                   0";
    "read_misses                 0";
    "total_writes                0";
    "write_hits                  0";
    "write_misses                0";
    "coherency_invalidates       0";
    "cycles                      0";
    rule;
    "cache_hit_rate              N/A";
    "cache_miss_rate             N/A";
    "coherency_miss_rate         N/A";
    "bus_utilization             N/A" ].

Definition zero_row : list cell :=
  [ CInt 0; CInt 0; CInt 0; CInt 0; CInt 0; CInt 0; CInt 0; CInt 0;
    CStr EmptyString; CStr EmptyString; CStr EmptyString; CStr EmptyString;
    CStr EmptyString ].

(** A decimal digit. *)
Definition is_digit (c : ascii) : bool := in_range 48 57 c.

(** The number written by the digits [ds], after the digits of [acc]. *)
Fixpoint dec_value (acc : Z) (ds : string) : Z :=
  match ds with
  | EmptyString => acc
  | String c ds' =>
      dec_value (10 * acc + default 0 (digit_val c)) ds'
  end.

(** Fixed notation with four decimals: an optional minus sign, at least
    one digit, a point, four digits. *)
Definition fixed_notation (neg : bool) (t : string) : Prop :=
  exists ip frac,
    t = (if neg then "-" else EmptyString) +:+ ip +:+ "." +:+ frac
    /\ ip <> EmptyString /\ all_chars is_digit ip = true
    /\ String.length frac = 4%nat /\ all_chars is_digit frac = true.

(** What a rate line may show. *)
Definition shown_rate (t : string) : Prop :=
  t = "N/A" \/ exists neg, fixed_notation neg t.

(** A float that is zero or a finite number. *)
Definition is_finite_SF (x : spec_float) : bool :=
  match x with
  | S754_zero _ | S754_finite _ _ _ => true
  | _ => false
  end.

(** Every known counter is an integer below [10^300] in absolute value. *)
Definition moderate (d : gmap string mval) : bool :=
  integer_valued d
  && forallb (fun k => Z.abs (int_of d k) <? 10 ^ 300) known_keys.


(** ** The places of a counter in the table and in the CSV row *)

Fixpoint spaces (n : nat) : string :=
  match n with
  | O => EmptyString
  | S n' => String " " (spaces n')
  end.

(** The label of a table line: the name, padded with spaces to 28
    columns. *)
Definition label (name : string) : string :=
  name +:+ spaces (28 - String.length name).

(** The other counter of the sum a counter is in: [total_accesses],
    [total_hits] and [total_misses] are each the sum of two counters. *)
Definition summed_with (key : string) : option string :=
  (list_to_map
     [ ("total_reads", "total_writes"); ("total_writes", "total_reads");
       ("read_hits", "write_hits"); ("write_hits", "read_hits");
       ("read_misses", "write_misses"); ("write_misses", "read_misses") ]
   : gmap string string) !! key.

(** The rates whose expression uses a counter. *)
Definition rates_of (key : string) : list string :=
  default []
    ((list_to_map
        [ ("total_reads",
           ["cache_hit_rate"; "cache_miss_rate"; "coherency_miss_rate"]);
          ("read_hits", ["cache_hit_rate"]);
          ("read_misses", ["cache_miss_rate"]);
          ("total_writes", ["cache_hit_rate"; "cache_miss_rate"]);
          ("write_hits", ["cache_hit_rate"]);
          ("write_misses", ["cache_miss_rate"]);
          ("coherency_invalidates", ["coherency_miss_rate"]);
          ("cycles", ["bus_utilization"]) ]
      : gmap string (list string)) !! key).

(** [cycles] as the guard [if d] of [safe_div] sees it: 0, absent (so 0)
    or the empty string. *)
Definition cycles_falsy (d : gmap string mval) : Prop :=
  d !! "cycles" = None \/ d !! "cycles" = Some (MInt 0)
  \/ d !! "cycles" = Some (MStr EmptyString).

(** The quotient [cycles_bus_busy / cycles] of two integers, [cycles]
    not 0: a finite float, or [OverflowError]. *)
Definition quotient (x y : Z) : result (option spec_float) :=
  match fdiv x y with
  | S754_infinity _ | S754_nan => Raise OverflowError
  | q => Ok (Some q)
  end.

(** The [bus_utilization] of a run that completes. *)
Definition bus_of_record (d : gmap string mval) : option spec_float :=
  match d !! "cycles_bus_busy", d !! "cycles" with
  | Some (MInt x), Some (MInt y) => if y =? 0 then None else Some (fdiv x y)
  | _, _ => None
  end.


(** * Part III: properties *)

(** ** The model on concrete inputs *)

Example splitlines_ex :
  splitlines ("a=1" +:+ nl +:+ nl +:+ "b" +:+ String CR nl +:+ "c" +:+ nl)
  = ["a=1"; EmptyString; "b"; "c"].
Proof. vm_compute. reflexivity. Qed.

Example py_int_ex :
  (py_int "42", py_int "+4_2", py_int "-0", py_int " 7", py_int "4__2",
   py_int "_42", py_int "42_", py_int "0x10", py_int "1.5", py_int "- 1",
   py_int EmptyString)
  = (Some 42, Some 42, Some 0, Some 7, None, None, None, None, None, None,
     None).
Proof. vm_compute. reflexivity. Qed.

Example parse_ex :
  parse_kv_lines ("# c" +:+ nl +:+ " total_reads = 1_0 " +:+ nl +:+ "x=y=z" +:+ nl +:+ "cycles=-07")
  = <["cycles" := MInt (-7)]> (<["x" := MStr "y=z"]> (<["total_reads" := MInt 10]> ∅)).
Proof. vm_compute. reflexivity. Qed.

Example fdiv_third : fdiv 1 3 = S754_finite false 6004799503160661 (-54).
Proof. vm_compute. reflexivity. Qed.

Example fdiv_tenth : fdiv 1 10 = S754_finite false 7205759403792794 (-56).
Proof. vm_compute. reflexivity. Qed.

Example true_div_overflow : int_true_div (10 ^ 400) 1 = Raise OverflowError.
Proof. vm_compute. reflexivity. Qed.

Example true_div_signed_zero : int_true_div 0 (-5) = Ok (S754_zero true).
Proof. reflexivity. Qed.

Example fmt_ex :
  (format_4f (fdiv 125 150), format_4f (fdiv 25 150), format_4f (fdiv 10 100),
   format_4f (fdiv 2500 10000), format_4f (fdiv 0 (-5)), format_4f (fdiv (-1) 3),
   format_4f (fdiv 123456789 1000))
  = ("0.8333", "0.1667", "0.1000", "0.2500", "-0.0000", "-0.3333", "123456.7890").
Proof. vm_compute. reflexivity. Qed.

Example main_spec_example :
  fst <$> (match main spec_example None with Ok x => Some x | Raise _ => None end)
  = Some
    [ "Metric                       Value"; rule;
      "total_reads                 100";
      "read_hits                   80";
      "read_misses                 20";
      "total_writes                50";
      "write_hits                  45";
      "write_misses                5";
      "coherency_invalidates       10";
      "cycles                      10000";
      "cycles_bus_busy             2500";
      rule;
      "cache_hit_rate              0.8333";
      "cache_miss_rate             0.1667";
      "coherency_miss_rate         0.1000";
      "bus_utilization             0.2500" ].
Proof. vm_compute. reflexivity. Qed.


(** ** Binary64 division of an integer by itself, and of zero *)

(** The quotient of [p] by [p] before rounding: mantissa [2^53], exponent
    [-53], no remainder. *)
Lemma SFdiv_core_self (p : positive) :
  SFdiv_core_binary 53 1024 (Zpos p) 0 (Zpos p) 0
  = (9007199254740992, -53, loc_Exact).
Proof.
  unfold SFdiv_core_binary.
  replace (Zdigits2 (Z.pos p) + 0 - (Zdigits2 (Z.pos p) + 0)) with 0 by lia.
  change (Z.min (fexp 53 1024 0) (0 - 0)) with (-53).
  change (0 - 0 - -53) with 53.
  cbv beta iota zeta.
  rewrite Z.shiftl_mul_pow2 by lia.
  assert (Hq : Z.pos p * 2 ^ 53 / Z.pos p = 2 ^ 53).
  { rewrite Z.mul_comm. apply Z.div_mul. lia. }
  assert (Hr : (Z.pos p * 2 ^ 53) mod Z.pos p = 0).
  { rewrite Z.mul_comm. apply Z.mod_mul. lia. }
  unfold Z.div in Hq. unfold Z.modulo in Hr.
  destruct (Z.div_eucl (Z.pos p * 2 ^ 53) (Z.pos p)) as [q r].
  simpl in Hq, Hr. subst q r.
  unfold new_location, new_location_even, new_location_odd.
  destruct (Z.even (Z.pos p)); reflexivity.
Qed.

Lemma fdiv_self (n : Z) : 0 < n -> fdiv n n = float_one.
Proof.
  intros Hn. destruct n as [|p|p]; try lia.
  unfold fdiv, Z2SF, SFdiv. rewrite SFdiv_core_self.
  vm_compute. reflexivity.
Qed.

Lemma fdiv_zero_l (d : Z) : 0 < d -> fdiv 0 d = S754_zero false.
Proof. intros Hd. destruct d; try lia. reflexivity. Qed.


(** ** The parser refines its specification *)

(** [split_eq] cuts at the first ['=']. *)
Lemma split_eq_spec (s : string) :
  split_eq s = if has_eq s then Some (before_eq s, after_eq s) else None.
Proof.
  induction s as [|c s IH]; simpl; [done|].
  destruct (Ascii.eqb c "="); simpl; [done|].
  rewrite IH. by destruct (has_eq s).
Qed.

Lemma append_nil_l (s : string) : EmptyString +:+ s = s.
Proof. reflexivity. Qed.

Lemma append_cons (c : ascii) (s t : string) :
  String c s +:+ t = String c (s +:+ t).
Proof. reflexivity. Qed.

Lemma split_at_first_eq (s : string) :
  has_eq s = true ->
  s = before_eq s +:+ String "=" (after_eq s) /\ has_eq (before_eq s) = false.
Proof.
  induction s as [|c s IH]; simpl; [done|].
  destruct (Ascii.eqb c "=") eqn:E; simpl.
  - intros _. by apply Ascii.eqb_eq in E as ->.
  - intros H. destruct (IH H) as [H1 H2]. rewrite E. simpl.
    split; [rewrite append_cons; by f_equal|done].
Qed.

(** The loop body stores the entry of the line, if it has one. *)
Lemma parse_line_entry (data : gmap string mval) (line : string) :
  parse_line data line
  = match line_entry line with
    | Some (k, v) => <[k := v]> data
    | None => data
    end.
Proof.
  unfold parse_line, line_entry, skipped, entry_of_trimmed, stored_value.
  destruct (bool_decide (strip line = EmptyString) || startswith_hash (strip line));
    simpl; [done|].
  rewrite split_eq_spec. destruct (has_eq (strip line)); simpl; [|done].
  by destruct (py_int _).
Qed.

Lemma parse_lines_snoc (ls : list string) (l : string) :
  parse_lines (ls ++ [l]) = parse_line (parse_lines ls) l.
Proof. unfold parse_lines. by rewrite foldl_app. Qed.

Lemma spec_entries_snoc (ls : list string) (l : string) :
  spec_entries (ls ++ [l])
  = spec_entries ls ++ match line_entry l with Some e => [e] | None => [] end.
Proof.
  unfold spec_entries, line_entry. cbv zeta.
  rewrite fmap_app, filter_app, fmap_app. f_equal. simpl.
  rewrite filter_cons, filter_nil.
  destruct (skipped (strip l)); by case_decide.
Qed.

Lemma parse_lines_lookup (ls : list string) (key : string) :
  parse_lines ls !! key
  = snd <$> last (filter (fun e => e.1 = key) (spec_entries ls)).
Proof.
  induction ls as [|l ls IH] using rev_ind; [done|].
  rewrite parse_lines_snoc, spec_entries_snoc, parse_line_entry, filter_app.
  destruct (line_entry l) as [[k v]|]; simpl.
  - rewrite filter_cons, filter_nil. simpl. case_decide as Hk.
    + subst k. by rewrite last_snoc, lookup_insert_eq.
    + rewrite app_nil_r, lookup_insert_ne by done. exact IH.
  - rewrite filter_nil, app_nil_r. exact IH.
Qed.

(** C5. [parse_kv_lines] is a total function (no line makes it raise), and
    it computes the record the specification describes: the text is split
    into lines, each line is trimmed; empty lines, lines starting with ['#']
    and lines without ['='] are skipped; every other line is cut at its
    first ['='] only, key and value are trimmed, the value is stored as an
    integer when [int] accepts it and as the trimmed string otherwise; the
    value of a key is the one of its last occurrence. *)
Theorem C5_parse_kv_lines_refines_spec (text key : string) :
  parse_kv_lines text !! key = spec_parse text key.
Proof. apply parse_lines_lookup. Qed.


(** ** Comment lines and blank lines *)

Lemma parse_line_ignorable (data : gmap string mval) (l : string) :
  ignorable l = true -> parse_line data l = data.
Proof. unfold ignorable, parse_line. by intros ->. Qed.

Lemma parse_lines_insert_ignorable (before after : list string) (c : string) :
  ignorable c = true ->
  parse_lines (before ++ c :: after) = parse_lines (before ++ after).
Proof.
  intros Hc. unfold parse_lines. rewrite !foldl_app. simpl.
  by rewrite parse_line_ignorable.
Qed.

(** C9. Inserting a comment line or a blank line at any position among the
    lines of the input leaves the parsed record unchanged. *)
Theorem C9_comment_or_blank_line_ignored
    (text text' : string) (before after : list string) (c : string) :
  ignorable c = true ->
  splitlines text = before ++ after ->
  splitlines text' = before ++ c :: after ->
  parse_kv_lines text' = parse_kv_lines text.
Proof.
  intros Hc Ht Ht'. unfold parse_kv_lines. rewrite Ht, Ht'.
  by apply parse_lines_insert_ignorable.
Qed.

Lemma C9_witness :
  parse_kv_lines (lines_text ["a=1"; "  # b=2"; "c=3"])
  = parse_kv_lines (lines_text ["a=1"; "c=3"]).
Proof.
  apply (C9_comment_or_blank_line_ignored
           (lines_text ["a=1"; "c=3"]) (lines_text ["a=1"; "  # b=2"; "c=3"])
           ["a=1"] ["c=3"] "  # b=2"); reflexivity.
Defined.


(** *** The same, stated on the text *)

Lemma splitlines_nonempty (s : string) : s <> EmptyString -> splitlines s <> [].
Proof.
  destruct s as [|c s]; [done|]. intros _. simpl.
  destruct (is_linebreak c); [done|]. by destruct (splitlines s).
Qed.

Lemma app_String_nonempty (u : string) (b : ascii) (t : string) :
  u +:+ String b t <> EmptyString.
Proof. by destruct u. Qed.

(** A line boundary [b] that is not the CR of a CR LF pair ends a line:
    the lines of the text after it are those of [t]. *)
Lemma splitlines_break_app (b : ascii) (t : string) :
  is_linebreak b = true ->
  Ascii.eqb b CR && starts_with_LF t = false ->
  forall u, splitlines (u +:+ String b t)
            = splitlines (u +:+ String b EmptyString) ++ splitlines t.
Proof.
  intros Hb Hcr.
  assert (Hbase : splitlines (String b t) = EmptyString :: splitlines t).
  { simpl. rewrite Hb. destruct (Ascii.eqb b CR); [|done].
    destruct t as [|c' t']; [done|]. simpl in Hcr. by rewrite Hcr. }
  assert (Hbase' : splitlines (String b EmptyString) = [EmptyString]).
  { simpl. rewrite Hb. by destruct (Ascii.eqb b CR). }
  intros u. remember (String.length u) as n eqn:Hn.
  revert u Hn. induction n as [n IH] using lt_wf_ind. intros u Hn.
  destruct u as [|c u]; rewrite ?append_nil_l, ?append_cons.
  { by rewrite Hbase, Hbase'. }
  simpl in Hn. cbn [splitlines]. destruct (is_linebreak c).
  - destruct (Ascii.eqb c CR).
    + destruct u as [|c' u']; rewrite ?append_nil_l, ?append_cons.
      * destruct (Ascii.eqb b LF) eqn:HbLF; [done|].
        by rewrite Hbase, Hbase'.
      * destruct (Ascii.eqb c' LF).
        -- by rewrite (IH (String.length u')) by (simpl in Hn; lia || done).
        -- rewrite <- !append_cons.
           by rewrite (IH (String.length (String c' u'))) by (lia || done).
    + by rewrite (IH (String.length u)) by (lia || done).
  - rewrite (IH (String.length u)) by (lia || done).
    pose proof (splitlines_nonempty (u +:+ String b EmptyString)
                  (app_String_nonempty _ _ _)) as Hne.
    by destruct (splitlines (u +:+ String b EmptyString)).
Qed.

Lemma splitlines_line (c t : string) :
  no_linebreak c = true ->
  splitlines (c +:+ nl +:+ t) = c :: splitlines t.
Proof.
  unfold no_linebreak. induction c as [|a c IH]; intros Hc.
  - reflexivity.
  - simpl in Hc. apply andb_true_iff in Hc as [Ha Hc].
    rewrite append_cons. cbn [splitlines].
    apply negb_true_iff in Ha. rewrite Ha. by rewrite IH.
Qed.

Lemma LF_linebreak : is_linebreak LF = true.
Proof. reflexivity. Qed.

Lemma nl_append (s : string) : nl +:+ s = String LF s.
Proof. reflexivity. Qed.

(** Inserting the line [c] after a newline of the text. *)
Lemma parse_insert_line_in_text (u t c : string) :
  no_linebreak c = true -> ignorable c = true ->
  parse_kv_lines (u +:+ nl +:+ c +:+ nl +:+ t)
  = parse_kv_lines (u +:+ nl +:+ t).
Proof.
  intros Hn Hc. unfold parse_kv_lines.
  rewrite (nl_append (c +:+ nl +:+ t)), (nl_append t).
  rewrite (splitlines_break_app LF (c +:+ String LF t) LF_linebreak eq_refl u).
  rewrite (splitlines_break_app LF t LF_linebreak eq_refl u).
  rewrite <- (nl_append t), splitlines_line by done.
  apply parse_lines_insert_ignorable, Hc.
Qed.

(** Inserting the line [c] before the first line of the text. *)
Lemma parse_insert_first_line (t c : string) :
  no_linebreak c = true -> ignorable c = true ->
  parse_kv_lines (c +:+ nl +:+ t) = parse_kv_lines t.
Proof.
  intros Hn Hc. unfold parse_kv_lines. rewrite splitlines_line by done.
  apply (parse_lines_insert_ignorable [] _ _ Hc).
Qed.


(** ** Keys the program does not read *)

Lemma agree_parse_line (d1 d2 : gmap string mval) (l : string) :
  agree d1 d2 -> agree (parse_line d1 l) (parse_line d2 l).
Proof.
  intros H k Hk. rewrite !parse_line_entry.
  destruct (line_entry l) as [[k' v]|]; [|by apply H].
  destruct (decide (k' = k)) as [->|Hne].
  - by rewrite !lookup_insert_eq.
  - rewrite !lookup_insert_ne by done. by apply H.
Qed.

Lemma agree_parse_line_unknown (d1 d2 : gmap string mval) (l : string) :
  unknown_key_line l = true -> agree d1 d2 -> agree (parse_line d1 l) d2.
Proof.
  unfold unknown_key_line. intros Hl H k Hk. rewrite parse_line_entry.
  destruct (line_entry l) as [[k' v]|]; [|done].
  apply negb_true_iff, bool_decide_eq_false in Hl.
  rewrite lookup_insert_ne by (intros ->; done). by apply H.
Qed.

(** Deleting the lines with an unknown key does not change the record on
    the known keys. *)
Lemma agree_without_unknown (ls : list string) :
  forall d1 d2, agree d1 d2 ->
    agree (foldl parse_line d1 ls) (foldl parse_line d2 (without_unknown ls)).
Proof.
  induction ls as [|l ls IH]; intros d1 d2 H; [done|].
  unfold without_unknown. rewrite filter_cons. simpl.
  destruct (unknown_key_line l) eqn:Hl; case_decide; try done.
  - apply IH. by apply agree_parse_line_unknown.
  - simpl. apply IH. by apply agree_parse_line.
Qed.

Lemma load_fields_agree (d1 d2 : gmap string mval) :
  agree d1 d2 -> load_fields d1 = load_fields d2.
Proof.
  intros H. unfold load_fields, get.
  rewrite !(H "total_reads"), !(H "read_hits"), !(H "read_misses"),
    !(H "total_writes"), !(H "write_hits"), !(H "write_misses"),
    !(H "coherency_invalidates"), !(H "cycles"), !(H "cycles_bus_busy");
    first done; unfold known_keys; set_solver.
Qed.

(** C10. Two input texts that differ only in lines whose trimmed key is
    outside the nine known names (deleting those lines from both leaves the
    same lines) give the same run: the same printed table and the same
    appended CSV row, or the same exception. *)
Theorem C10_unknown_keys_do_not_influence_output
    (text1 text2 : string) (csv : option csv_file) :
  without_unknown (splitlines text1) = without_unknown (splitlines text2) ->
  main text1 csv = main text2 csv.
Proof.
  intros H. unfold main, parse_kv_lines, parse_lines.
  assert (Hag : agree (foldl parse_line ∅ (splitlines text1))
                      (foldl parse_line ∅ (splitlines text2))).
  { intros k Hk.
    rewrite (agree_without_unknown (splitlines text1) ∅ ∅) by done.
    rewrite H. symmetry.
    by apply (agree_without_unknown (splitlines text2) ∅ ∅). }
  by rewrite (load_fields_agree _ _ Hag).
Qed.

Lemma C10_witness :
  main (lines_text ["total_reads=4"; "core_id=7"; "read_hits=3"]) None
  = main (lines_text ["note = x"; "total_reads=4"; "read_hits=3"; "core_id=9"]) None.
Proof.
  apply (C10_unknown_keys_do_not_influence_output
           (lines_text ["total_reads=4"; "core_id=7"; "read_hits=3"])
           (lines_text ["note = x"; "total_reads=4"; "read_hits=3"; "core_id=9"])
           None).
  vm_compute. reflexivity.
Defined.


(** ** Rates of an integer-valued record *)

Lemma safe_div_int (n d : Z) : safe_div (MInt n) (MInt d) = ratio n d.
Proof. unfold safe_div, ratio, truthy. by destruct (d =? 0). Qed.

Lemma safe_div_falsy (n d : mval) : truthy d = false -> safe_div n d = Ok None.
Proof. unfold safe_div. by intros ->. Qed.

Lemma get_integer (d : gmap string mval) (k : string) :
  is_raw (d !! k) = false -> get d k (MInt 0) = MInt (int_of d k).
Proof. unfold get, int_of. by destruct (d !! k) as [[]|]. Qed.

Lemma lookup_integer (d : gmap string mval) (k : string) :
  is_raw (d !! k) = false ->
  d !! k = match d !! k with
           | Some _ => Some (MInt (int_of d k))
           | None => None
           end.
Proof. unfold int_of. by destruct (d !! k) as [[]|]. Qed.

Lemma load_fields_integer (d : gmap string mval) :
  integer_valued d = true ->
  load_fields d =
  {| total_reads := MInt (int_of d "total_reads");
     read_hits := MInt (int_of d "read_hits");
     read_misses := MInt (int_of d "read_misses");
     total_writes := MInt (int_of d "total_writes");
     write_hits := MInt (int_of d "write_hits");
     write_misses := MInt (int_of d "write_misses");
     coherency_invalidates := MInt (int_of d "coherency_invalidates");
     cycles := MInt (int_of d "cycles");
     cycles_bus_busy :=
       match d !! "cycles_bus_busy" with
       | Some _ => Some (MInt (int_of d "cycles_bus_busy"))
       | None => None
       end |}.
Proof.
  unfold integer_valued, known_keys. cbn [forallb].
  rewrite !andb_true_iff, !negb_true_iff.
  intros (H1 & H2 & H3 & H4 & H5 & H6 & H7 & H8 & H9 & _).
  unfold load_fields. rewrite !get_integer by done.
  f_equal. by apply lookup_integer.
Qed.

(** On integer counters the sums are integer sums and every [safe_div] is
    a [ratio]. *)
Lemma compute_rates_int (tr rh rm tw wh wm ci : Z) (cy : mval)
    (cbb : option mval) :
  let f := {| total_reads := MInt tr; read_hits := MInt rh;
              read_misses := MInt rm; total_writes := MInt tw;
              write_hits := MInt wh; write_misses := MInt wm;
              coherency_invalidates := MInt ci; cycles := cy;
              cycles_bus_busy := cbb |} in
  compute_rates f =
    (hit ← ratio (rh + wh) (tr + tw);
     miss ← ratio (rm + wm) (tr + tw);
     coh ← ratio ci tr;
     bus ← bus_utilization_of f;
     Ok {| cache_hit_rate := hit; cache_miss_rate := miss;
           coherency_miss_rate := coh; bus_utilization := bus |}).
Proof. intros f. unfold compute_rates. simpl. by rewrite !safe_div_int. Qed.

(** The [bus_utilization] of a completed computation is the value of its
    expression. *)
Lemma compute_rates_bus (f : fields) (r : rates) :
  compute_rates f = Ok r -> bus_utilization_of f = Ok (bus_utilization r).
Proof.
  unfold compute_rates. intros H.
  repeat match type of H with
         | (mbind _ ?x = _) => destruct x; simpl in H; try discriminate
         end.
  by injection H as <-.
Qed.


(** ** Runs of [main] *)

(** The record written for [row]: its values in the order of
    [fieldnames]. *)
Lemma writerow_row (f : fields) (r : rates) :
  writerow fieldnames (row f r) =
  [ cell_of_mval (total_reads f); cell_of_mval (read_hits f);
    cell_of_mval (read_misses f); cell_of_mval (total_writes f);
    cell_of_mval (write_hits f); cell_of_mval (write_misses f);
    cell_of_mval (coherency_invalidates f); cell_of_mval (cycles f);
    cell_of_opt cell_of_mval (cycles_bus_busy f);
    cell_of_opt CFloat (cache_hit_rate r);
    cell_of_opt CFloat (cache_miss_rate r);
    cell_of_opt CFloat (coherency_miss_rate r);
    cell_of_opt CFloat (bus_utilization r) ].
Proof. reflexivity. Qed.

(** What a completed run printed and wrote. *)
Lemma main_ok_inv (text : string) (csv : option csv_file)
    (out : list string) (csv' : csv_file) :
  main text csv = Ok (out, csv') ->
  exists r, compute_rates (load_fields (parse_kv_lines text)) = Ok r
    /\ out = table (load_fields (parse_kv_lines text)) r
    /\ csv' = default [] csv
               ++ (if bool_decide (csv = None) then [writeheader fieldnames]
                   else [])
               ++ [writerow fieldnames (row (load_fields (parse_kv_lines text)) r)].
Proof.
  unfold main. generalize (load_fields (parse_kv_lines text)) as f. intros f.
  destruct (compute_rates f) as [r|e]; intros H; [|discriminate H].
  exists r. change (Ok (A := list string * csv_file)
                      (table f r,
                       default [] csv
                       ++ (if bool_decide (csv = None)
                           then [writeheader fieldnames] else [])
                       ++ [writerow fieldnames (row f r)]) = Ok (out, csv')) in H.
  split; [reflexivity|].
  revert H. generalize (table f r) as T.
  generalize (default [] csv
              ++ (if bool_decide (csv = None) then [writeheader fieldnames]
                  else [])
              ++ [writerow fieldnames (row f r)]) as C.
  intros C T H. by injection H as <- <-.
Qed.

Lemma main_raise (text : string) (csv : option csv_file) (e : exn) :
  compute_rates (load_fields (parse_kv_lines text)) = Raise e ->
  main text csv = Raise e.
Proof. unfold main. by intros ->. Qed.

Lemma table_rates (f : fields) (r : rates) :
  exists counters,
    table f r = counters ++
      [ rule;
        "cache_hit_rate              " +:+ fmt_rate (cache_hit_rate r);
        "cache_miss_rate             " +:+ fmt_rate (cache_miss_rate r);
        "coherency_miss_rate         " +:+ fmt_rate (coherency_miss_rate r);
        "bus_utilization             " +:+ fmt_rate (bus_utilization r) ].
Proof.
  unfold table. eexists. rewrite app_assoc. reflexivity.
Qed.


(** ** Derived rates *)

(** The hit rate of 1 hit in 3 reads is a binary64 number, and not the real
    number 1/3: the division rounds. *)
Lemma C2_counterexample :
  exists r x,
    compute_rates
      (load_fields (parse_kv_lines (lines_text ["total_reads=3"; "read_hits=1"])))
    = Ok r
    /\ cache_hit_rate r = Some x
    /\ ~ exact_quotient x (1 + 0) (3 + 0).
Proof.
  eexists _, _. split; [vm_compute; reflexivity|].
  split; [reflexivity|]. vm_compute. discriminate.
Qed.

(** C2 (amended). For a record whose known fields are integers, the rates
    are [cache_hit_rate = (read_hits + write_hits) / (total_reads +
    total_writes)] and [cache_miss_rate = (read_misses + write_misses) /
    (total_reads + total_writes)], null when [total_reads + total_writes]
    is 0, and [coherency_miss_rate = coherency_invalidates / total_reads],
    null when [total_reads] is 0.  Each division is the true division of
    two integers: its result is the binary64 number [fdiv n d], and
    [OverflowError] leaves the program when that number is not finite. *)
Theorem C2_rates_of_integer_record (d : gmap string mval) :
  integer_valued d = true ->
  compute_rates (load_fields d) =
    (hit ← ratio (int_of d "read_hits" + int_of d "write_hits")
                 (int_of d "total_reads" + int_of d "total_writes");
     miss ← ratio (int_of d "read_misses" + int_of d "write_misses")
                  (int_of d "total_reads" + int_of d "total_writes");
     coh ← ratio (int_of d "coherency_invalidates") (int_of d "total_reads");
     bus ← bus_utilization_of (load_fields d);
     Ok {| cache_hit_rate := hit; cache_miss_rate := miss;
           coherency_miss_rate := coh; bus_utilization := bus |}).
Proof.
  intros Hd. rewrite (load_fields_integer d Hd). apply compute_rates_int.
Qed.

Lemma C2_witness :
  compute_rates (load_fields (parse_kv_lines spec_example))
  = Ok {| cache_hit_rate := Some (fdiv 125 150);
          cache_miss_rate := Some (fdiv 25 150);
          coherency_miss_rate := Some (fdiv 10 100);
          bus_utilization := Some (fdiv 2500 10000) |}.
Proof.
  rewrite (C2_rates_of_integer_record (parse_kv_lines spec_example));
    vm_compute; reflexivity.
Defined.


(** ** The CSV file *)

(** C4. A run that completes appends one data row of 13 columns, in the
    order [total_reads, read_hits, read_misses, total_writes, write_hits,
    write_misses, coherency_invalidates, cycles, cycles_bus_busy,
    cache_hit_rate, cache_miss_rate, coherency_miss_rate, bus_utilization],
    a null value being the empty string; the header (the 13 names) is
    written before it only when no file existed.  A second run on the
    resulting file appends its row and no header, so two runs on a fresh
    path leave one header row and two data rows. *)
Theorem C4_csv_rows (text1 text2 : string) (csv : option csv_file)
    (out1 out2 : list string) (csv1 csv2 : csv_file) :
  main text1 csv = Ok (out1, csv1) ->
  main text2 (Some csv1) = Ok (out2, csv2) ->
  exists r1 r2,
    let f1 := load_fields (parse_kv_lines text1) in
    let f2 := load_fields (parse_kv_lines text2) in
    let header := CStr <$> (fst <$> csv_columns f1 r1) in
    let row1 := snd <$> csv_columns f1 r1 in
    let row2 := snd <$> csv_columns f2 r2 in
    compute_rates f1 = Ok r1 /\ compute_rates f2 = Ok r2
    /\ length header = 13%nat /\ length row1 = 13%nat /\ length row2 = 13%nat
    /\ csv1 = match csv with
              | None => [header; row1]
              | Some rows => rows ++ [row1]
              end
    /\ csv2 = csv1 ++ [row2]
    /\ (csv = None -> csv2 = [header; row1; row2]).
Proof.
  intros H1 H2.
  apply main_ok_inv in H1 as (r1 & Hr1 & _ & Hc1).
  apply main_ok_inv in H2 as (r2 & Hr2 & _ & Hc2).
  exists r1, r2. cbv zeta.
  split; [exact Hr1|]. split; [exact Hr2|].
  split; [reflexivity|]. split; [reflexivity|]. split; [reflexivity|].
  rewrite writerow_row in Hc1, Hc2.
  assert (E1 : csv1 = match csv with
                      | None => [writeheader fieldnames;
                                 snd <$> csv_columns
                                   (load_fields (parse_kv_lines text1)) r1]
                      | Some rows =>
                          rows ++ [snd <$> csv_columns
                                     (load_fields (parse_kv_lines text1)) r1]
                      end).
  { rewrite Hc1. destruct csv; reflexivity. }
  split; [exact E1|]. split; [exact Hc2|].
  intros ->. rewrite Hc2, E1. reflexivity.
Qed.

Lemma C4_witness :
  exists header row1 row2 : list cell, second_run.2 = [header; row1; row2].
Proof.
  destruct (C4_csv_rows spec_example (lines_text ["total_reads=0"]) None
              first_run.1 second_run.1 first_run.2 second_run.2)
    as (r1 & r2 & _ & _ & _ & _ & _ & _ & _ & E);
    [vm_compute; reflexivity | vm_compute; reflexivity |].
  eexists _, _, _. exact (E eq_refl).
Defined.


(** ** Zero denominators *)



(** ** The table without bus data *)

(** C7. When the key [cycles_bus_busy] is absent from the input,
    [bus_utilization] is null and a run that completes prints no
    [cycles_bus_busy] row: the table is the heading, the eight counter rows
    and the four rate rows, in the fixed order. *)
Theorem C7_absent_bus_busy (text : string) :
  parse_kv_lines text !! "cycles_bus_busy" = None ->
  let d := parse_kv_lines text in
  bus_utilization_of (load_fields d) = Ok None
  /\ (forall csv out csv', main text csv = Ok (out, csv') ->
      exists r,
        compute_rates (load_fields d) = Ok r
        /\ bus_utilization r = None
        /\ out =
          [ "Metric                       Value"; rule;
            "total_reads                 " +:+ py_str (get d "total_reads" (MInt 0));
            "read_hits                   " +:+ py_str (get d "read_hits" (MInt 0));
            "read_misses                 " +:+ py_str (get d "read_misses" (MInt 0));
            "total_writes                " +:+ py_str (get d "total_writes" (MInt 0));
            "write_hits                  " +:+ py_str (get d "write_hits" (MInt 0));
            "write_misses                " +:+ py_str (get d "write_misses" (MInt 0));
            "coherency_invalidates       "
              +:+ py_str (get d "coherency_invalidates" (MInt 0));
            "cycles                      " +:+ py_str (get d "cycles" (MInt 0));
            rule;
            "cache_hit_rate              " +:+ fmt_rate (cache_hit_rate r);
            "cache_miss_rate             " +:+ fmt_rate (cache_miss_rate r);
            "coherency_miss_rate         " +:+ fmt_rate (coherency_miss_rate r);
            "bus_utilization             N/A" ]).
Proof.
  intros Hd d.
  assert (H : bus_utilization_of (load_fields d) = Ok None).
  { unfold bus_utilization_of, load_fields. cbn [cycles_bus_busy].
    fold d in Hd. by rewrite Hd. }
  split; [exact H|].
  intros csv out csv' Hmain.
  apply main_ok_inv in Hmain as (r & Hr & Hout & _). fold d in Hr, Hout.
  exists r. split; [exact Hr|].
  assert (Hbus : bus_utilization r = None).
  { apply compute_rates_bus in Hr. rewrite H in Hr. by injection Hr as <-. }
  split; [exact Hbus|].
  rewrite Hout. unfold table, load_fields.
  cbn [cycles_bus_busy total_reads read_hits read_misses total_writes
       write_hits write_misses coherency_invalidates cycles].
  fold d in Hd. rewrite Hd, Hbus. reflexivity.
Qed.

Lemma C7_witness :
  bus_utilization_of (load_fields (parse_kv_lines (lines_text ["cycles=5"])))
  = Ok None.
Proof.
  apply (C7_absent_bus_busy (lines_text ["cycles=5"])).
  vm_compute. reflexivity.
Defined.


(** ** A record in which every access hits *)

(** C8. For integers [a, b >= 0], with [read_hits = a], [write_hits = b],
    [total_reads = a], [total_writes = b], [read_misses = 0] and
    [write_misses = 0], the computed [cache_hit_rate] is the float 1.0 when
    [a + b > 0] and null when [a + b = 0]; computing it never raises. *)
Theorem C8_all_hits (a b : Z) (ci cy : mval) (cbb : option mval) :
  0 <= a -> 0 <= b ->
  let f := {| total_reads := MInt a; read_hits := MInt a;
              read_misses := MInt 0; total_writes := MInt b;
              write_hits := MInt b; write_misses := MInt 0;
              coherency_invalidates := ci; cycles := cy;
              cycles_bus_busy := cbb |} in
  safe_div (MInt (a + b)) (MInt (a + b))
  = Ok (if 0 <? a + b then Some float_one else None)
  /\ compute_rates f =
       (coh ← safe_div ci (MInt a);
        bus ← bus_utilization_of f;
        Ok {| cache_hit_rate := if 0 <? a + b then Some float_one else None;
              cache_miss_rate :=
                if 0 <? a + b then Some (S754_zero false) else None;
              coherency_miss_rate := coh; bus_utilization := bus |}).
Proof.
  intros Ha Hb f.
  assert (Hhit : safe_div (MInt (a + b)) (MInt (a + b))
                 = Ok (if 0 <? a + b then Some float_one else None)).
  { rewrite safe_div_int. unfold ratio, int_true_div.
    destruct (Z.eqb_spec (a + b) 0) as [H0|H0].
    - rewrite H0. reflexivity.
    - rewrite fdiv_self by lia. replace (0 <? a + b) with true; [done|].
      symmetry. apply Z.ltb_lt. lia. }
  assert (Hmiss : safe_div (MInt (0 + 0)) (MInt (a + b))
                  = Ok (if 0 <? a + b then Some (S754_zero false) else None)).
  { rewrite safe_div_int. unfold ratio, int_true_div.
    destruct (Z.eqb_spec (a + b) 0) as [H0|H0].
    - rewrite H0. reflexivity.
    - change (0 + 0) with 0. rewrite fdiv_zero_l by lia.
      replace (0 <? a + b) with true; [done|].
      symmetry. apply Z.ltb_lt. lia. }
  split; [exact Hhit|].
  unfold compute_rates.
  cbn [total_reads total_writes read_hits write_hits read_misses
       write_misses coherency_invalidates f py_add mbind result_bind].
  rewrite Hhit, Hmiss. reflexivity.
Qed.

Lemma C8_witness :
  safe_div (MInt (3 + 4)) (MInt (3 + 4)) = Ok (Some float_one).
Proof.
  apply (C8_all_hits 3 4 (MInt 0) (MInt 0) None); lia.
Defined.

(** * Part IV: further properties of the code *)

(** ** [strip] *)

Lemma lstrip_clean (ws : ascii -> bool) (s : string) :
  clean_start ws (lstrip_by ws s) = true.
Proof.
  induction s as [|c s IH]; simpl; [done|].
  destruct (ws c) eqn:E; [done|]. simpl. by rewrite E.
Qed.

Lemma lstrip_id (ws : ascii -> bool) (s : string) :
  clean_start ws s = true -> lstrip_by ws s = s.
Proof. destruct s as [|c s]; simpl; [done|]. by destruct (ws c). Qed.

Lemma rstrip_cons_clean (ws : ascii -> bool) (c : ascii) (s : string) :
  ws c = false -> exists r, rstrip_by ws (String c s) = String c r.
Proof.
  intros Hc. simpl. rewrite Hc. destruct (rstrip_by ws s); eauto.
Qed.

Lemma rstrip_clean (ws : ascii -> bool) (s : string) :
  clean_start ws s = true -> clean_start ws (rstrip_by ws s) = true.
Proof.
  destruct s as [|c s]; [done|]. cbn [clean_start]. intros Hc.
  apply negb_true_iff in Hc.
  destruct (rstrip_cons_clean ws c s Hc) as [r ->]. simpl. by rewrite Hc.
Qed.

Lemma rstrip_idemp (ws : ascii -> bool) (s : string) :
  rstrip_by ws (rstrip_by ws s) = rstrip_by ws s.
Proof.
  induction s as [|c s IH]; [done|]. cbn [rstrip_by].
  destruct (rstrip_by ws s) as [|c' r] eqn:E.
  - destruct (ws c) eqn:Hc; simpl; [done|]. by rewrite Hc.
  - cbn [rstrip_by]. cbn [rstrip_by] in IH. rewrite IH. done.
Qed.

Lemma strip_idemp (s : string) : strip (strip s) = strip s.
Proof.
  unfold strip.
  rewrite (lstrip_id is_whitespace (rstrip_by _ _))
    by apply rstrip_clean, lstrip_clean.
  apply rstrip_idemp.
Qed.

Lemma lstrip_rstrip_comm (ws : ascii -> bool) (s : string) :
  rstrip_by ws (lstrip_by ws s) = lstrip_by ws (rstrip_by ws s).
Proof.
  induction s as [|c s IH]; [done|].
  destruct (ws c) eqn:Hc.
  - cbn [lstrip_by]. rewrite Hc, IH. cbn [rstrip_by].
    destruct (rstrip_by ws s) as [|c' r]; [by rewrite Hc|].
    symmetry. cbn [lstrip_by]. by rewrite Hc.
  - cbn [lstrip_by]. rewrite Hc.
    destruct (rstrip_cons_clean ws c s Hc) as [r ->]. simpl. by rewrite Hc.
Qed.

Lemma has_eq_lstrip (ws : ascii -> bool) (s : string) :
  has_eq s = false -> has_eq (lstrip_by ws s) = false.
Proof.
  induction s as [|c s IH]; simpl; [done|].
  intros H. apply orb_false_iff in H as [H1 H2].
  destruct (ws c); [by apply IH|]. simpl. by rewrite H1, H2.
Qed.

Lemma has_eq_rstrip (ws : ascii -> bool) (s : string) :
  has_eq s = false -> has_eq (rstrip_by ws s) = false.
Proof.
  induction s as [|c s IH]; simpl; [done|].
  intros H. apply orb_false_iff in H as [H1 H2]. specialize (IH H2).
  destruct (rstrip_by ws s).
  - destruct (ws c); simpl; [done|]. by rewrite H1.
  - cbn [has_eq]. cbn [has_eq] in IH. by rewrite H1, IH.
Qed.

Lemma has_eq_before_eq (s : string) : has_eq (before_eq s) = false.
Proof.
  induction s as [|c s IH]; simpl; [done|].
  destruct (Ascii.eqb c "=") eqn:E; simpl; [done|]. by rewrite E, IH.
Qed.

Lemma strip_clean (s : string) : clean_start is_whitespace (strip s) = true.
Proof. apply rstrip_clean, lstrip_clean. Qed.

(** ** What every stored entry looks like *)

Lemma strip_starts (c : ascii) (s : string) :
  is_whitespace c = false -> exists r, strip (String c s) = String c r.
Proof.
  intros Hc. unfold strip. cbn [lstrip_by]. rewrite Hc.
  by apply rstrip_cons_clean.
Qed.

Lemma startswith_hash_key (t : string) :
  clean_start is_whitespace t = true -> startswith_hash t = false ->
  startswith_hash (strip (before_eq t)) = false.
Proof.
  destruct t as [|c t]; [done|]. cbn [clean_start startswith_hash before_eq].
  intros Hc Hh. apply negb_true_iff in Hc.
  destruct (Ascii.eqb c "="); [done|].
  destruct (strip_starts c (before_eq t) Hc) as [r ->]. done.
Qed.

Lemma line_entry_well_formed (l k : string) (v : mval) :
  line_entry l = Some (k, v) -> well_formed_entry k v.
Proof.
  unfold line_entry, skipped, entry_of_trimmed, stored_value.
  destruct (bool_decide (strip l = EmptyString)) eqn:He; [done|].
  destruct (startswith_hash (strip l)) eqn:Hh; [done|].
  destruct (has_eq (strip l)); [|done]. cbn [orb negb].
  intros [= <- <-]. split; [apply strip_idemp|].
  split.
  { unfold strip. by apply has_eq_rstrip, has_eq_lstrip, has_eq_before_eq. }
  split; [by apply startswith_hash_key; [apply strip_clean|]|].
  destruct (py_int (strip (after_eq (strip l)))) eqn:Hi; [done|].
  split; [apply strip_idemp|done].
Qed.

Lemma parse_line_well_formed (d : gmap string mval) (l : string) :
  map_Forall well_formed_entry d ->
  map_Forall well_formed_entry (parse_line d l).
Proof.
  intros Hd. rewrite parse_line_entry.
  destruct (line_entry l) as [[k v]|] eqn:E; [|done].
  apply map_Forall_insert_2; [|done]. by eapply line_entry_well_formed.
Qed.

(** X3. Every entry of the parsed record is well formed: its key is trimmed,
    has no ['='] and does not begin with ['#'] (it may be empty); a value
    kept as a string is trimmed and is not an integer literal. *)
Theorem parse_kv_lines_well_formed (text key : string) (v : mval) :
  parse_kv_lines text !! key = Some v -> well_formed_entry key v.
Proof.
  revert key v. change (map_Forall well_formed_entry (parse_kv_lines text)).
  unfold parse_kv_lines, parse_lines.
  generalize (splitlines text) as ls. intros ls.
  assert (H : forall d, map_Forall well_formed_entry d ->
                        map_Forall well_formed_entry (foldl parse_line d ls)).
  { induction ls as [|l ls IH]; intros d Hd; [done|].
    simpl. by apply IH, parse_line_well_formed. }
  apply H, map_Forall_empty.
Qed.

Lemma parse_kv_lines_well_formed_witness :
  well_formed_entry "mode" (MStr "write back").
Proof.
  apply (parse_kv_lines_well_formed
           (lines_text ["  mode =  write back  "; "cycles=7"]) "mode").
  vm_compute. reflexivity.
Defined.

(** ** One key-value line *)

Lemma lstrip_app_sep (ws : ascii -> bool) (a : string) (c : ascii) (b : string) :
  ws c = false ->
  lstrip_by ws (a +:+ String c b) = lstrip_by ws a +:+ String c b.
Proof.
  intros Hc. induction a as [|x a IH]; rewrite ?append_nil_l, ?append_cons.
  - simpl. by rewrite Hc.
  - cbn [lstrip_by]. destruct (ws x); [exact IH|]. by rewrite append_cons.
Qed.

Lemma rstrip_app_sep (ws : ascii -> bool) (a : string) (c : ascii) (b : string) :
  ws c = false ->
  rstrip_by ws (a +:+ String c b) = a +:+ String c (rstrip_by ws b).
Proof.
  intros Hc. induction a as [|x a IH]; rewrite ?append_nil_l, ?append_cons.
  - simpl. rewrite Hc. by destruct (rstrip_by ws b).
  - cbn [rstrip_by]. rewrite IH.
    destruct a; by rewrite ?append_nil_l, ?append_cons.
Qed.

Lemma eq_not_whitespace : is_whitespace "=" = false.
Proof. reflexivity. Qed.

Lemma strip_key_value (a b : string) :
  strip (a +:+ String "=" b)
  = lstrip_by is_whitespace a +:+ String "=" (rstrip_by is_whitespace b).
Proof.
  unfold strip.
  by rewrite lstrip_app_sep, rstrip_app_sep by apply eq_not_whitespace.
Qed.

Lemma before_eq_app (a b : string) :
  has_eq a = false -> before_eq (a +:+ String "=" b) = a.
Proof.
  induction a as [|x a IH]; rewrite ?append_nil_l, ?append_cons; simpl; [done|].
  intros H. apply orb_false_iff in H as [H1 H2]. by rewrite H1, IH.
Qed.

Lemma after_eq_app (a b : string) :
  has_eq a = false -> after_eq (a +:+ String "=" b) = b.
Proof.
  induction a as [|x a IH]; rewrite ?append_nil_l, ?append_cons; simpl; [done|].
  intros H. apply orb_false_iff in H as [H1 H2]. by rewrite H1, IH.
Qed.

Lemma has_eq_app (a b : string) : has_eq (a +:+ String "=" b) = true.
Proof.
  induction a as [|x a IH]; rewrite ?append_nil_l, ?append_cons; simpl; [done|].
  rewrite IH. apply orb_true_r.
Qed.

Lemma startswith_hash_lstrip_app (a : string) (c : ascii) (b : string) :
  Ascii.eqb c "#" = false ->
  startswith_hash (lstrip_by is_whitespace a +:+ String c b)
  = startswith_hash (strip a).
Proof.
  intros Hc. unfold strip.
  pose proof (lstrip_clean is_whitespace a) as Hcl.
  destruct (lstrip_by is_whitespace a) as [|x t]; rewrite ?append_nil_l, ?append_cons.
  - simpl. exact Hc.
  - cbn [clean_start] in Hcl. apply negb_true_iff in Hcl.
    destruct (rstrip_cons_clean is_whitespace x t Hcl) as [r ->]. done.
Qed.

Lemma parse_line_at_eq (d : gmap string mval) (a b : string) :
  has_eq a = false ->
  parse_line d (a +:+ String "=" b) =
    if startswith_hash (strip a) then d
    else match py_int (strip b) with
         | Some n => <[strip a := MInt n]> d
         | None => <[strip a := MStr (strip b)]> d
         end.
Proof.
  intros Ha. unfold parse_line. rewrite strip_key_value.
  rewrite bool_decide_eq_false_2 by apply app_String_nonempty.
  rewrite startswith_hash_lstrip_app by reflexivity. cbn [orb].
  destruct (startswith_hash (strip a)); [done|].
  rewrite split_eq_spec, has_eq_app.
  rewrite before_eq_app, after_eq_app by by apply has_eq_lstrip.
  replace (strip (lstrip_by is_whitespace a)) with (strip a).
  2:{ unfold strip. by rewrite (lstrip_id _ (lstrip_by _ a)) by apply lstrip_clean. }
  replace (strip (rstrip_by is_whitespace b)) with (strip b).
  2:{ unfold strip. by rewrite <- lstrip_rstrip_comm, rstrip_idemp. }
  done.
Qed.

(** X1. The line [a=b], where [a] has no ['=']: unless the trimmed [a] begins
    with ['#'], it stores the trimmed [b] (as an integer when it is an
    integer literal) under the trimmed [a]. *)
Theorem parse_line_key_value (d : gmap string mval) (a b : string) :
  has_eq a = false ->
  parse_line d (a +:+ String "=" b) =
    if startswith_hash (strip a) then d
    else match py_int (strip b) with
         | Some n => <[strip a := MInt n]> d
         | None => <[strip a := MStr (strip b)]> d
         end.
Proof. exact (parse_line_at_eq d a b). Qed.

Lemma parse_line_key_value_witness :
  parse_line ∅ (" cycles " +:+ String "=" " 1_000 ") = <["cycles" := MInt 1000]> ∅.
Proof.
  rewrite (parse_line_key_value ∅ " cycles " " 1_000 "); vm_compute; reflexivity.
Defined.

Lemma lstrip_app_ws (ws : ascii -> bool) (w s : string) :
  all_chars ws w = true -> lstrip_by ws (w +:+ s) = lstrip_by ws s.
Proof.
  induction w as [|c w IH]; rewrite ?append_nil_l, ?append_cons; [done|].
  simpl. intros H. apply andb_true_iff in H as [-> H]. by apply IH.
Qed.

Lemma rstrip_all_ws (ws : ascii -> bool) (w : string) :
  all_chars ws w = true -> rstrip_by ws w = EmptyString.
Proof.
  induction w as [|c w IH]; [done|]. simpl.
  intros H. apply andb_true_iff in H as [-> H]. by rewrite IH.
Qed.

Lemma rstrip_app_ws (ws : ascii -> bool) (s w : string) :
  all_chars ws w = true -> rstrip_by ws (s +:+ w) = rstrip_by ws s.
Proof.
  intros Hw. induction s as [|c s IH]; rewrite ?append_nil_l, ?append_cons.
  - by apply rstrip_all_ws.
  - cbn [rstrip_by]. by rewrite IH.
Qed.

Lemma strip_padded (w1 s w2 : string) :
  all_chars is_whitespace w1 = true -> all_chars is_whitespace w2 = true ->
  strip (w1 +:+ s +:+ w2) = strip s.
Proof.
  intros H1 H2. unfold strip. rewrite lstrip_app_ws by done.
  rewrite lstrip_rstrip_comm, rstrip_app_ws by done.
  by rewrite <- lstrip_rstrip_comm.
Qed.

Lemma has_eq_append (a b : string) :
  has_eq (a +:+ b) = has_eq a || has_eq b.
Proof.
  induction a as [|x a IH]; rewrite ?append_nil_l, ?append_cons; simpl; [done|].
  by rewrite IH, orb_assoc.
Qed.

Lemma all_ws_no_eq (w : string) :
  all_chars is_whitespace w = true -> has_eq w = false.
Proof.
  induction w as [|c w IH]; simpl; [done|].
  intros H. apply andb_true_iff in H as [Hc H]. rewrite (IH H), orb_false_r.
  destruct (Ascii.eqb_spec c "=") as [->|]; [|done]. by vm_compute in Hc.
Qed.

Lemma append_assoc (a b c : string) : (a +:+ b) +:+ c = a +:+ b +:+ c.
Proof. induction a as [|x a IH]; rewrite ?append_nil_l, ?append_cons; [done|]. by rewrite IH. Qed.

(** X2. Whitespace around the key, around ['='] and around the value is
    insignificant. *)
Theorem parse_line_whitespace_insignificant
    (d : gmap string mval) (k v w1 w2 w3 w4 : string) :
  has_eq k = false ->
  all_chars is_whitespace w1 = true -> all_chars is_whitespace w2 = true ->
  all_chars is_whitespace w3 = true -> all_chars is_whitespace w4 = true ->
  parse_line d ((w1 +:+ k +:+ w2) +:+ String "=" (w3 +:+ v +:+ w4))
  = parse_line d (k +:+ String "=" v).
Proof.
  intros Hk H1 H2 H3 H4.
  rewrite !parse_line_at_eq; [|done|].
  - by rewrite !strip_padded.
  - rewrite !has_eq_append, Hk. by rewrite !all_ws_no_eq.
Qed.

Lemma parse_line_whitespace_insignificant_witness :
  parse_line ∅ (("  " +:+ "cycles" +:+ " ") +:+ String "=" (" " +:+ "12" +:+ "  "))
  = parse_line ∅ ("cycles" +:+ String "=" "12").
Proof.
  apply (parse_line_whitespace_insignificant ∅ "cycles" "12" "  " " " " " "  ");
    reflexivity.
Defined.

(** ** Concatenating inputs *)

Lemma foldl_parse_line_union (ls : list string) (d : gmap string mval) :
  foldl parse_line d ls = parse_lines ls ∪ d.
Proof.
  induction ls as [|l ls IH] using rev_ind.
  - unfold parse_lines. simpl. by rewrite (left_id_L ∅ (∪)).
  - rewrite parse_lines_snoc, foldl_app. simpl. rewrite IH, !parse_line_entry.
    destruct (line_entry l) as [[k v]|]; [|done]. apply insert_union_l.
Qed.

Lemma parse_lines_app (ls1 ls2 : list string) :
  parse_lines (ls1 ++ ls2) = parse_lines ls2 ∪ parse_lines ls1.
Proof.
  unfold parse_lines at 1. rewrite foldl_app. apply foldl_parse_line_union.
Qed.

(** A final newline adds at most one empty line. *)
Lemma splitlines_final_nl (t : string) :
  splitlines (t +:+ nl) = splitlines t
  \/ splitlines (t +:+ nl) = splitlines t ++ [EmptyString].
Proof.
  remember (String.length t) as n eqn:Hn. revert t Hn.
  induction n as [n IH] using lt_wf_ind. intros t Hn.
  destruct t as [|c t]; rewrite ?append_nil_l, ?append_cons.
  { right. reflexivity. }
  simpl in Hn. cbn [splitlines]. destruct (is_linebreak c).
  - destruct (Ascii.eqb c CR).
    + destruct t as [|c' t']; rewrite ?append_nil_l, ?append_cons.
      * left. reflexivity.
      * destruct (Ascii.eqb c' LF).
        -- destruct (IH (String.length t') ltac:(simpl in Hn; lia) t' eq_refl)
             as [->| ->]; [by left|by right].
        -- rewrite <- append_cons.
           destruct (IH (String.length (String c' t')) ltac:(lia) _ eq_refl)
             as [->| ->]; [by left|by right].
    + destruct (IH (String.length t) ltac:(lia) t eq_refl)
        as [->| ->]; [by left|by right].
  - destruct (IH (String.length t) ltac:(lia) t eq_refl) as [->| ->];
      [by left|].
    destruct (splitlines t); [by left|by right].
Qed.

Lemma parse_lines_snoc_empty (ls : list string) :
  parse_lines (ls ++ [EmptyString]) = parse_lines ls.
Proof. by rewrite parse_lines_snoc. Qed.

Lemma parse_kv_lines_final_nl (t : string) :
  parse_kv_lines (t +:+ nl) = parse_kv_lines t.
Proof.
  unfold parse_kv_lines.
  destruct (splitlines_final_nl t) as [->| ->]; [done|].
  apply parse_lines_snoc_empty.
Qed.

(** X4. Two inputs put one after the other, with a newline between them, give
    the union of their records, in which the second input wins. *)
Theorem parse_kv_lines_concat (t1 t2 : string) :
  parse_kv_lines (t1 +:+ nl +:+ t2) = parse_kv_lines t2 ∪ parse_kv_lines t1.
Proof.
  rewrite <- (parse_kv_lines_final_nl t1). unfold parse_kv_lines.
  rewrite (nl_append t2).
  rewrite (splitlines_break_app LF t2 LF_linebreak eq_refl t1).
  apply parse_lines_app.
Qed.

(** ** The order of lines with different keys *)

Lemma parse_lines_list_to_map (ls : list string) :
  parse_lines ls = list_to_map (reverse (spec_entries ls)).
Proof.
  induction ls as [|l ls IH] using rev_ind; [done|].
  rewrite parse_lines_snoc, spec_entries_snoc, parse_line_entry, reverse_app.
  destruct (line_entry l) as [[k v]|]; simpl; by rewrite IH.
Qed.

Lemma spec_entries_perm (ls1 ls2 : list string) :
  ls1 ≡ₚ ls2 -> spec_entries ls1 ≡ₚ spec_entries ls2.
Proof. intros H. unfold spec_entries. by rewrite H. Qed.

(** X6. When no key occurs twice, the order of the lines is irrelevant: any
    reordering of the lines gives the same record and the same run. *)
Theorem parse_kv_lines_order_irrelevant
    (text1 text2 : string) (csv : option csv_file) :
  NoDup (spec_entries (splitlines text1)).*1 ->
  splitlines text1 ≡ₚ splitlines text2 ->
  parse_kv_lines text1 = parse_kv_lines text2
  /\ main text1 csv = main text2 csv.
Proof.
  intros Hnd Hp.
  assert (H : parse_kv_lines text1 = parse_kv_lines text2).
  { unfold parse_kv_lines. rewrite !parse_lines_list_to_map.
    apply list_to_map_proper.
    - by rewrite fmap_reverse, reverse_Permutation.
    - by rewrite !reverse_Permutation, (spec_entries_perm _ _ Hp). }
  split; [exact H|]. unfold main. by rewrite H.
Qed.

(** ** Line endings *)

Lemma splitlines_line_crlf (c t : string) :
  no_linebreak c = true ->
  splitlines (c +:+ crlf +:+ t) = c :: splitlines t.
Proof.
  unfold no_linebreak. induction c as [|a c IH]; intros Hc.
  - reflexivity.
  - simpl in Hc. apply andb_true_iff in Hc as [Ha Hc].
    rewrite append_cons. cbn [splitlines].
    apply negb_true_iff in Ha. rewrite Ha. by rewrite IH.
Qed.

Lemma splitlines_line_cr (c t : string) :
  no_linebreak c = true -> starts_with_LF t = false ->
  splitlines (c +:+ cr +:+ t) = c :: splitlines t.
Proof.
  unfold no_linebreak. intros Hc Ht. induction c as [|a c IH].
  - unfold cr. rewrite append_nil_l, append_cons, append_nil_l.
    cbn [splitlines]. change (is_linebreak CR) with true.
    change (Ascii.eqb CR CR) with true. cbv iota.
    destruct t as [|x t]; [done|]. simpl in Ht. by rewrite Ht.
  - simpl in Hc. apply andb_true_iff in Hc as [Ha Hc].
    rewrite append_cons. cbn [splitlines].
    apply negb_true_iff in Ha. rewrite Ha. by rewrite IH.
Qed.

Lemma no_linebreak_not_LF_start (c t : string) :
  no_linebreak c = true -> starts_with_LF (c +:+ cr +:+ t) = false.
Proof.
  unfold no_linebreak. destruct c as [|a c]; [done|].
  rewrite append_cons. simpl. intros H. apply andb_true_iff in H as [Ha _].
  apply negb_true_iff in Ha.
  destruct (Ascii.eqb_spec a LF) as [->|]; [|done]. by vm_compute in Ha.
Qed.

Lemma join_cr_not_LF_start (ls : list string) :
  forallb no_linebreak ls = true -> starts_with_LF (join_lines cr ls) = false.
Proof.
  destruct ls as [|l ls]; [done|]. simpl. intros H.
  apply andb_true_iff in H as [Hl _]. by apply no_linebreak_not_LF_start.
Qed.

(** X7. [splitlines] undoes joining of lines, whether the lines end in LF, in
    CR LF or in CR; so the parsed record does not depend on which of these
    line endings the input uses. *)
Theorem splitlines_join_lines (ls : list string) :
  forallb no_linebreak ls = true ->
  (splitlines (join_lines nl ls) = ls
   /\ splitlines (join_lines crlf ls) = ls
   /\ splitlines (join_lines cr ls) = ls)
  /\ parse_kv_lines (join_lines crlf ls) = parse_kv_lines (join_lines nl ls)
  /\ parse_kv_lines (join_lines cr ls) = parse_kv_lines (join_lines nl ls).
Proof.
  intros H.
  assert (H3 : splitlines (join_lines nl ls) = ls
               /\ splitlines (join_lines crlf ls) = ls
               /\ splitlines (join_lines cr ls) = ls).
  { induction ls as [|l ls IH]; [done|].
    simpl in H. apply andb_true_iff in H as [Hl H].
    destruct (IH H) as (I1 & I2 & I3). cbn [join_lines foldr].
    fold (join_lines nl ls). fold (join_lines crlf ls). fold (join_lines cr ls).
    rewrite splitlines_line, splitlines_line_crlf by done.
    rewrite splitlines_line_cr by (done || by apply join_cr_not_LF_start).
    by rewrite I1, I2, I3. }
  split; [exact H3|]. destruct H3 as (I1 & I2 & I3).
  unfold parse_kv_lines. by rewrite I1, I2, I3.
Qed.

Lemma splitlines_join_lines_witness :
  parse_kv_lines (join_lines crlf ["total_reads=4"; "# x"; "cycles=9"])
  = parse_kv_lines (join_lines nl ["total_reads=4"; "# x"; "cycles=9"]).
Proof.
  apply (splitlines_join_lines ["total_reads=4"; "# x"; "cycles=9"]).
  vm_compute. reflexivity.
Defined.

Lemma parse_kv_lines_order_irrelevant_witness :
  parse_kv_lines (lines_text ["cycles=9"; "# x"; "total_reads=4"])
  = parse_kv_lines (lines_text ["total_reads=4"; "cycles=9"; "# x"]).
Proof.
  apply (parse_kv_lines_order_irrelevant
           (lines_text ["cycles=9"; "# x"; "total_reads=4"])
           (lines_text ["total_reads=4"; "cycles=9"; "# x"]) None).
  - apply (bool_decide_unpack _). vm_compute. exact I.
  - apply (bool_decide_unpack _). vm_compute. exact I.
Defined.

(** ** Exceptions of [safe_div] and of [main] *)

Lemma bind_raise_inv {A B} (x : result A) (k : A -> result B) (e : exn) :
  x ≫= k = Raise e -> x = Raise e \/ exists a, x = Ok a /\ k a = Raise e.
Proof.
  destruct x as [a|e']; intros H.
  - right. exists a. split; [reflexivity|exact H].
  - left. change (@Raise B e' = Raise e) in H. by injection H as ->.
Qed.

Lemma py_add_raise (a b : mval) (e : exn) :
  py_add a b = Raise e -> e = TypeError.
Proof. destruct a, b; simpl; congruence. Qed.

Lemma safe_div_no_zero_division (n d : mval) :
  safe_div n d <> Raise ZeroDivisionError.
Proof.
  unfold safe_div. destruct (truthy d) eqn:Ht; [|done].
  destruct n as [x|s], d as [y|s']; simpl; try done.
  unfold int_true_div. simpl in Ht. apply negb_true_iff in Ht. rewrite Ht.
  by destruct (fdiv x y).
Qed.

Lemma compute_rates_no_zero_division (f : fields) :
  compute_rates f <> Raise ZeroDivisionError.
Proof.
  unfold compute_rates. intros H.
  repeat (apply bind_raise_inv in H as [H|(? & _ & H)];
          [first [by apply py_add_raise in H
                 |by apply safe_div_no_zero_division in H
                 |idtac]|]); [|done].
  unfold bus_utilization_of in H. destruct (cycles_bus_busy f); [|done].
  by apply safe_div_no_zero_division in H.
Qed.

(** X10. [safe_div] never raises [ZeroDivisionError], and neither does [main];
    [safe_div] is null exactly when its denominator is falsy (the integer 0
    or the empty string). *)
Theorem no_zero_division :
  (forall n d, safe_div n d <> Raise ZeroDivisionError)
  /\ (forall n d, safe_div n d = Ok None <-> truthy d = false)
  /\ (forall text csv, main text csv <> Raise ZeroDivisionError).
Proof.
  split; [apply safe_div_no_zero_division|]. split.
  - intros n d. split; [|apply safe_div_falsy].
    unfold safe_div. destruct (truthy d); [|done].
    by destruct (py_truediv n d).
  - intros text csv H. unfold main in H.
    apply bind_raise_inv in H as [H|(? & _ & H)]; [|done].
    by apply compute_rates_no_zero_division in H.
Qed.

Lemma ratio_raise (n d : Z) (e : exn) :
  ratio n d = Raise e -> e = OverflowError.
Proof.
  unfold ratio, int_true_div. destruct (d =? 0); [done|].
  destruct (fdiv n d); simpl; congruence.
Qed.

Lemma bus_utilization_of_integer (d : gmap string mval) :
  integer_valued d = true ->
  bus_utilization_of (load_fields d)
  = match d !! "cycles_bus_busy" with
    | Some _ => ratio (int_of d "cycles_bus_busy") (int_of d "cycles")
    | None => Ok None
    end.
Proof.
  intros Hd. rewrite (load_fields_integer d Hd). unfold bus_utilization_of.
  cbn [cycles_bus_busy cycles].
  destruct (d !! "cycles_bus_busy"); [apply safe_div_int|done].
Qed.

(** X11. On a record whose known fields are integers, the only exception [main]
    can raise is [OverflowError]. *)
Theorem integer_record_only_overflows (text : string) (csv : option csv_file)
    (e : exn) :
  integer_valued (parse_kv_lines text) = true ->
  main text csv = Raise e -> e = OverflowError.
Proof.
  intros Hd H. unfold main in H.
  apply bind_raise_inv in H as [H|(? & _ & H)]; [|done].
  rewrite (load_fields_integer _ Hd), compute_rates_int in H.
  repeat (apply bind_raise_inv in H as [H|(? & _ & H)];
          [by apply ratio_raise in H|]).
  apply bind_raise_inv in H as [H|(? & _ & H)]; [|done].
  rewrite <- (load_fields_integer _ Hd), bus_utilization_of_integer in H by done.
  destruct (parse_kv_lines text !! "cycles_bus_busy"); [|done].
  by apply ratio_raise in H.
Qed.

Lemma integer_record_only_overflows_witness :
  main (lines_text ["read_hits=" +:+ pretty (10 ^ 400); "total_reads=1"]) None
  = Raise OverflowError.
Proof.
  destruct (main (lines_text ["read_hits=" +:+ pretty (10 ^ 400); "total_reads=1"])
              None) as [x|e] eqn:E.
  - vm_compute in E. discriminate E.
  - f_equal.
    apply (integer_record_only_overflows
             (lines_text ["read_hits=" +:+ pretty (10 ^ 400); "total_reads=1"])
             None e); [vm_compute; reflexivity|exact E].
Defined.

(** ** Input without any key-value line *)

Lemma parse_lines_no_entry (ls : list string) :
  forallb (fun l => bool_decide (line_entry l = None)) ls = true ->
  parse_lines ls = ∅.
Proof.
  induction ls as [|l ls IH] using rev_ind; [done|].
  rewrite forallb_app, andb_true_iff. simpl. rewrite andb_true_r.
  intros [H1 H2]. apply bool_decide_eq_true in H2.
  by rewrite parse_lines_snoc, parse_line_entry, H2, IH.
Qed.

(** X9. An input in which no line is a key-value line (empty, or only blank
    lines, comments and lines without ['=']) gives the empty record; the
    run completes, prints every counter as 0 and every rate as [N/A], and
    appends a row of eight zeros and five empty strings. *)
Theorem main_without_entries (text : string) (csv : option csv_file) :
  forallb (fun l => bool_decide (line_entry l = None)) (splitlines text) = true ->
  parse_kv_lines text = ∅
  /\ main text csv
     = Ok (zero_table,
           default [] csv
           ++ (if bool_decide (csv = None) then [writeheader fieldnames] else [])
           ++ [zero_row]).
Proof.
  intros H. apply parse_lines_no_entry in H.
  split; [exact H|]. unfold main. fold (parse_kv_lines text) in H.
  rewrite H. reflexivity.
Qed.

Lemma main_without_entries_witness :
  parse_kv_lines (lines_text ["# perf dump"; EmptyString; "no separator here"]) = ∅.
Proof.
  apply (main_without_entries
           (lines_text ["# perf dump"; EmptyString; "no separator here"]) None).
  vm_compute. reflexivity.
Defined.

(** ** Negative zero *)

(** X14. A zero numerator over a negative denominator is the float -0.0, which
    the table shows with its sign. *)
Theorem zero_over_negative (d : Z) :
  d < 0 ->
  safe_div (MInt 0) (MInt d) = Ok (Some (S754_zero true))
  /\ fmt_rate (Some (S754_zero true)) = "-0.0000".
Proof.
  intros Hd. split; [|by vm_compute].
  rewrite safe_div_int. unfold ratio, int_true_div.
  destruct (Z.eqb_spec d 0); [lia|]. destruct d; try lia. reflexivity.
Qed.

Lemma zero_over_negative_witness :
  safe_div (MInt 0) (MInt (-4)) = Ok (Some (S754_zero true)).
Proof. apply (zero_over_negative (-4)). lia. Defined.

(** ** Repeated invocations on one CSV path *)

Lemma invoke_completes (text : string) (csv : option csv_file) :
  completes text = true ->
  exists r,
    invoke csv text
    = Some (default [] csv
            ++ (if bool_decide (csv = None) then [writeheader fieldnames]
                else [])
            ++ [writerow fieldnames (row (load_fields (parse_kv_lines text)) r)]).
Proof.
  unfold completes, invoke, main.
  destruct (compute_rates _) as [r|]; [|done]. intros _. by exists r.
Qed.

Lemma invoke_fresh (text : string) :
  completes text = true ->
  exists r,
    invoke None text
    = Some [writeheader fieldnames;
            writerow fieldnames (row (load_fields (parse_kv_lines text)) r)].
Proof.
  unfold completes, invoke, main.
  destruct (compute_rates _) as [r|]; [|done]. intros _. by exists r.
Qed.

Lemma invoke_fails (text : string) (csv : option csv_file) :
  completes text = false -> invoke csv text = csv.
Proof.
  unfold completes, invoke, main. by destruct (compute_rates _).
Qed.

Lemma invoke_headed (text : string) (rows : csv_file) (n : nat) :
  headed_table rows n ->
  exists rows',
    invoke (Some rows) text = Some rows'
    /\ headed_table rows' (if completes text then S n else n).
Proof.
  intros H. destruct (completes text) eqn:Hc.
  - destruct (invoke_completes text (Some rows) Hc) as (r & E).
    eexists. split; [exact E|]. destruct H as (data & -> & Hlen & Hall).
    exists (data ++ [writerow fieldnames (row (load_fields (parse_kv_lines text)) r)]).
    split; [reflexivity|]. split.
    + rewrite length_app. simpl. lia.
    + apply Forall_app. split; [done|]. by apply Forall_singleton.
  - exists rows. split; [by apply invoke_fails|done].
Qed.

Lemma invocations_headed (texts : list string) :
  forall rows n, headed_table rows n ->
    exists rows',
      foldl invoke (Some rows) texts = Some rows'
      /\ headed_table rows' (n + length (filter (fun t => completes t = true) texts)).
Proof.
  induction texts as [|t texts IH]; intros rows n H.
  - exists rows. split; [done|]. simpl. by rewrite Nat.add_0_r.
  - destruct (invoke_headed t rows n H) as (rows1 & E1 & H1).
    destruct (IH rows1 _ H1) as (rows2 & E2 & H2).
    exists rows2. cbn [foldl]. rewrite E1. split; [exact E2|].
    rewrite filter_cons. destruct (completes t); case_decide; try done.
    simpl. by rewrite Nat.add_succ_r.
Qed.

(** X17. Any number of invocations on a fresh CSV path leave no file when no run
    completed, and otherwise a file made of the header row followed by one
    row of 13 cells for each run that completed: the header is never
    repeated and a failed run leaves no trace. *)
Theorem invocations_on_fresh_path (texts : list string) :
  let n := length (filter (fun t => completes t = true) texts) in
  match foldl invoke None texts with
  | None => n = 0%nat
  | Some rows => (0 < n)%nat /\ headed_table rows n
  end.
Proof.
  induction texts as [|t texts IH]; [done|].
  cbn [foldl]. rewrite filter_cons.
  destruct (completes t) eqn:Hc; case_decide; try done.
  - destruct (invoke_fresh t Hc) as (r & Er).
    edestruct (invocations_headed texts
                 [writeheader fieldnames;
                  writerow fieldnames (row (load_fields (parse_kv_lines t)) r)]
                 1%nat) as (rows' & E & H').
    { eexists [_]. split; [reflexivity|]. split; [done|].
      by apply Forall_singleton. }
    match goal with
    | |- match ?x with _ => _ end =>
        replace x with (Some rows') by (rewrite Er; symmetry; exact E)
    end.
    split; [simpl; lia|exact H'].
  - rewrite (invoke_fails t None Hc). exact IH.
Qed.

(** ** Decimal digits of [str(n)] *)

Lemma length_append (a b : string) :
  String.length (a +:+ b) = (String.length a + String.length b)%nat.
Proof.
  induction a as [|c a IH]; rewrite ?append_nil_l, ?append_cons; [done|].
  simpl. by rewrite IH.
Qed.

Lemma all_chars_append (p : ascii -> bool) (a b : string) :
  all_chars p (a +:+ b) = all_chars p a && all_chars p b.
Proof.
  induction a as [|c a IH]; rewrite ?append_nil_l, ?append_cons; [done|].
  simpl. by rewrite IH, andb_assoc.
Qed.

Lemma dec_value_append (acc : Z) (a b : string) :
  dec_value acc (a +:+ b) = dec_value (dec_value acc a) b.
Proof.
  revert acc. induction a as [|c a IH]; intros acc;
    rewrite ?append_nil_l, ?append_cons; [done|]. simpl. apply IH.
Qed.

Lemma pretty_N_char_digit (y : N) :
  (y < 10)%N ->
  is_digit (pretty_N_char y) = true
  /\ digit_val (pretty_N_char y) = Some (Z.of_N y).
Proof.
  intros Hy.
  assert (y = 0 \/ y = 1 \/ y = 2 \/ y = 3 \/ y = 4 \/ y = 5 \/ y = 6
          \/ y = 7 \/ y = 8 \/ y = 9)%N as H by lia.
  repeat (destruct H as [->|H]; [by vm_compute|]). subst. by vm_compute.
Qed.

(** [pretty_N_go x s] puts the decimal digits of [x] before [s]. *)
Lemma pretty_N_go_digits (x : N) :
  forall s, exists ds,
    pretty_N_go x s = ds +:+ s
    /\ all_chars is_digit ds = true
    /\ (forall acc, dec_value acc ds
                    = acc * 10 ^ Z.of_nat (String.length ds) + Z.of_N x)
    /\ Z.of_N x < 10 ^ Z.of_nat (String.length ds)
    /\ ((0 < x)%N -> 10 ^ (Z.of_nat (String.length ds) - 1) <= Z.of_N x)
    /\ (x = 0%N -> ds = EmptyString).
Proof.
  induction (N.lt_wf_0 x) as [x _ IH]. intros s.
  destruct (decide (x = 0%N)) as [->|Hx].
  { exists EmptyString. rewrite pretty_N_go_0.
    repeat split; try done; intros; simpl; lia. }
  assert (0 < x)%N as Hpos by lia.
  rewrite pretty_N_go_step by done.
  destruct (IH (x `div` 10)%N ltac:(by apply N.div_lt)
              (String (pretty_N_char (x `mod` 10)) s))
    as (ds & E & Hd & Hv & Hub & Hlb & Hz).
  destruct (pretty_N_char_digit (x `mod` 10)%N ltac:(by apply N.mod_lt))
    as [Hc1 Hc2].
  exists (ds +:+ String (pretty_N_char (x `mod` 10)) EmptyString).
  assert (Hlen : Z.of_nat (String.length
                   (ds +:+ String (pretty_N_char (x `mod` 10)) EmptyString))
                 = Z.of_nat (String.length ds) + 1).
  { rewrite length_append. simpl. lia. }
  assert (Hx10 : Z.of_N x = 10 * Z.of_N (x `div` 10) + Z.of_N (x `mod` 10)).
  { pose proof (N.div_mod x 10 ltac:(lia)) as Hdm.
    rewrite Hdm at 1. rewrite N2Z.inj_add, N2Z.inj_mul. done. }
  assert (Hm : 0 <= Z.of_N (x `mod` 10) < 10).
  { assert (x `mod` 10 < 10)%N as Hlt by (by apply N.mod_lt).
    split; [apply N2Z.is_nonneg|]. change 10 with (Z.of_N 10).
    by apply N2Z.inj_lt. }
  split; [by rewrite E, append_assoc|].
  split; [by rewrite all_chars_append, Hd; simpl; rewrite Hc1|].
  rewrite Hlen, Z.pow_add_r, Z.pow_1_r by lia.
  split; [|split; [|split]].
  - intros acc. rewrite dec_value_append, Hv. simpl. rewrite Hc2. simpl. lia.
  - lia.
  - intros _. replace (Z.of_nat (String.length ds) + 1 - 1)
      with (Z.of_nat (String.length ds)) by lia.
    destruct (decide (x `div` 10 = 0)%N) as [E0|E0].
    + rewrite (Hz E0). simpl. lia.
    + specialize (Hlb ltac:(lia)).
      destruct (String.length ds) as [|k] eqn:Ek.
      * simpl. lia.
      * replace (Z.of_nat (S k)) with (Z.of_nat (S k) - 1 + 1) by lia.
        rewrite Z.pow_add_r, Z.pow_1_r by lia. lia.
  - intros ->. lia.
Qed.

(** The decimal text of a non-negative integer. *)
Lemma pretty_nonneg_digits (z : Z) :
  0 <= z ->
  exists ds,
    pretty z = ds /\ ds <> EmptyString
    /\ all_chars is_digit ds = true
    /\ dec_value 0 ds = z
    /\ (0 < z -> 10 ^ (Z.of_nat (String.length ds) - 1) <= z).
Proof.
  intros Hz. destruct z as [|p|p]; [|clear Hz|lia].
  { exists "0". by repeat split. }
  change (pretty (Z.pos p)) with (pretty (N.pos p)).
  unfold pretty, pretty_N. rewrite decide_False by done.
  destruct (pretty_N_go_digits (N.pos p) EmptyString)
    as (ds & E & Hd & Hv & Hub & Hlb & _).
  exists ds. assert (Eds : ds +:+ EmptyString = ds).
  { clear. induction ds as [|c ds IH]; rewrite ?append_nil_l, ?append_cons; [done|].
    by rewrite IH. }
  rewrite Eds in E. split; [exact E|]. split.
  { intros ->. simpl in Hub. lia. }
  split; [exact Hd|]. split; [rewrite Hv; simpl; lia|].
  intros _. apply Hlb. lia.
Qed.

(** ** The text of a rate *)

Lemma length_zeros (n : nat) : String.length (zeros n) = n.
Proof. induction n; simpl; [done|]. by rewrite IHn. Qed.

Lemma all_digits_zeros (n : nat) : all_chars is_digit (zeros n) = true.
Proof. induction n; simpl; [done|]. exact IHn. Qed.

Lemma pad4_shape (n : Z) :
  0 <= n < 10000 ->
  String.length (pad4 n) = 4%nat /\ all_chars is_digit (pad4 n) = true.
Proof.
  intros Hn. unfold pad4.
  destruct (pretty_nonneg_digits n ltac:(lia)) as (ds & E & Hne & Hd & _ & Hlb).
  rewrite E.
  assert (Hlen : (String.length ds <= 4)%nat).
  { destruct (decide (n = 0)) as [->|Hn0].
    - rewrite <- E. vm_compute. lia.
    - specialize (Hlb ltac:(lia)).
      destruct (le_lt_dec (String.length ds) 4) as [|Hgt]; [done|exfalso].
      assert (10 ^ 4 <= 10 ^ (Z.of_nat (String.length ds) - 1)).
      { apply Z.pow_le_mono_r; lia. }
      lia. }
  split.
  - rewrite length_append, length_zeros. lia.
  - by rewrite all_chars_append, all_digits_zeros, Hd.
Qed.

Lemma round_half_even_div_nonneg (num den : Z) :
  0 <= num -> 0 < den -> 0 <= round_half_even_div num den.
Proof.
  intros Hn Hd. unfold round_half_even_div.
  assert (0 <= num / den) by (apply Z.div_pos; lia).
  destruct (2 * (num mod den) ?= den); [destruct (Z.even _)|..]; lia.
Qed.

Lemma fixed4_shape (neg : bool) (m e : Z) :
  0 <= m -> fixed_notation neg (fixed4 neg m e).
Proof.
  intros Hm. unfold fixed4, fixed_notation.
  set (r := if 0 <=? e then m * 10000 * 2 ^ e
            else round_half_even_div (m * 10000) (2 ^ (- e))).
  assert (Hr : 0 <= r).
  { unfold r. destruct (Z.leb_spec 0 e).
    - apply Z.mul_nonneg_nonneg; [lia|]. apply Z.pow_nonneg. lia.
    - apply round_half_even_div_nonneg; [lia|]. apply Z.pow_pos_nonneg; lia. }
  destruct (pretty_nonneg_digits (r / 10000)
              ltac:(apply Z.div_pos; lia)) as (ip & Eip & Hne & Hd & _).
  destruct (pad4_shape (r mod 10000) ltac:(apply Z.mod_pos_bound; lia))
    as [Hl Hf].
  exists ip, (pad4 (r mod 10000)). by rewrite Eip.
Qed.

Lemma fixed_notation_not_na (neg : bool) (t : string) :
  fixed_notation neg t -> t <> "N/A".
Proof.
  intros (ip & frac & -> & _ & _ & Hl & _) E.
  apply (f_equal String.length) in E.
  rewrite !length_append, Hl in E. simpl in E. lia.
Qed.

(** X15. [fmt_rate] gives [N/A] for the null rate and for nothing else; a
    finite rate is shown in fixed notation: an optional minus sign, at
    least one digit, a point and exactly four digits. *)
Theorem fmt_rate_shape :
  (forall x, fmt_rate x = "N/A" <-> x = None)
  /\ (forall s m e, fixed_notation s (fmt_rate (Some (S754_finite s m e))))
  /\ (forall s, fixed_notation s (fmt_rate (Some (S754_zero s)))).
Proof.
  split; [|split].
  - intros x. split; [|by intros ->].
    destruct x as [[s|s| |s m e]|]; simpl; try done.
    + intros E. by apply (fixed_notation_not_na s _ (fixed4_shape s 0 0 ltac:(lia))) in E.
    + by destruct s.
    + intros E. by apply (fixed_notation_not_na s _
                            (fixed4_shape s (Z.pos m) e ltac:(lia))) in E.
  - intros s m e. simpl. by apply fixed4_shape.
  - intros s. simpl. by apply fixed4_shape.
Qed.

Lemma int_true_div_finite (n d : Z) (q : spec_float) :
  int_true_div n d = Ok q ->
  (exists s, q = S754_zero s) \/ (exists s m e, q = S754_finite s m e).
Proof.
  unfold int_true_div. destruct (d =? 0); [done|].
  destruct (fdiv n d) as [s|s| |s m e]; intros [= <-]; eauto.
Qed.

Lemma safe_div_shown (n d : mval) (x : option spec_float) :
  safe_div n d = Ok x -> shown_rate (fmt_rate x).
Proof.
  unfold safe_div, shown_rate. destruct (truthy d); [|intros [= <-]; by left].
  destruct n as [a|], d as [b|]; simpl; try done.
  destruct (int_true_div a b) as [q|] eqn:E; simpl; [|done].
  intros [= <-]. right.
  apply int_true_div_finite in E as [[s ->]|(s & m & e & ->)]; exists s;
    simpl; by apply fixed4_shape.
Qed.

(** X16. Every rate line of a completed run shows [N/A] or a number in fixed
    notation with four decimals: never [inf], [nan] or an exponent. *)
Theorem printed_rates_shape (f : fields) (r : rates) :
  compute_rates f = Ok r ->
  shown_rate (fmt_rate (cache_hit_rate r))
  /\ shown_rate (fmt_rate (cache_miss_rate r))
  /\ shown_rate (fmt_rate (coherency_miss_rate r))
  /\ shown_rate (fmt_rate (bus_utilization r)).
Proof.
  unfold compute_rates. intros H.
  destruct (py_add (total_reads f) (total_writes f)) as [acc|]; [|done].
  destruct (py_add (read_hits f) (write_hits f)) as [hits|]; [|done].
  destruct (py_add (read_misses f) (write_misses f)) as [misses|]; [|done].
  cbn [mbind result_bind] in H.
  destruct (safe_div hits acc) as [hit|] eqn:E1; [|done].
  destruct (safe_div misses acc) as [miss|] eqn:E2; [|done].
  destruct (safe_div (coherency_invalidates f) (total_reads f)) as [coh|] eqn:E3;
    [|done].
  destruct (bus_utilization_of f) as [bus|] eqn:E4; [|done].
  cbn [mbind result_bind] in H. injection H as <-.
  cbn [cache_hit_rate cache_miss_rate coherency_miss_rate bus_utilization].
  repeat split; try by eapply safe_div_shown.
  unfold bus_utilization_of in E4. destruct (cycles_bus_busy f).
  - by eapply safe_div_shown.
  - injection E4 as <-. by left.
Qed.

Lemma printed_rates_shape_witness :
  shown_rate (fmt_rate (Some (fdiv 125 150))).
Proof.
  apply (printed_rates_shape
           (load_fields (parse_kv_lines spec_example))
           {| cache_hit_rate := Some (fdiv 125 150);
              cache_miss_rate := Some (fdiv 25 150);
              coherency_miss_rate := Some (fdiv 10 100);
              bus_utilization := Some (fdiv 2500 10000) |}).
  vm_compute. reflexivity.
Defined.

(** ** When the division cannot overflow *)

Lemma digits2_pos_bounds (p : positive) :
  2 ^ (Z.pos (digits2_pos p) - 1) <= Z.pos p < 2 ^ Z.pos (digits2_pos p).
Proof.
  induction p as [p IH|p IH|]; cbn [digits2_pos]; [| |by vm_compute].
  all: rewrite Pos2Z.inj_succ;
    replace (Z.succ (Z.pos (digits2_pos p)) - 1) with (Z.pos (digits2_pos p)) by lia;
    rewrite Z.pow_succ_r by lia;
    assert (E : 2 ^ Z.pos (digits2_pos p) = 2 * 2 ^ (Z.pos (digits2_pos p) - 1))
      by (rewrite <- Z.pow_succ_r by lia; f_equal; lia);
    lia.
Qed.

Lemma Zdigits2_nonneg (m : Z) : 0 <= Zdigits2 m.
Proof. destruct m; simpl; lia. Qed.

Lemma Zdigits2_ub (m : Z) : 0 <= m -> m < 2 ^ Zdigits2 m.
Proof.
  intros Hm. destruct m as [|p|p]; [by vm_compute| |lia].
  apply digits2_pos_bounds.
Qed.

Lemma Zdigits2_le (m k : Z) : 0 <= k -> 0 <= m < 2 ^ k -> Zdigits2 m <= k.
Proof.
  intros Hk [Hm Hlt]. destruct m as [|p|p]; [simpl; lia| |lia].
  pose proof (digits2_pos_bounds p) as [Hlb _]. simpl.
  assert (2 ^ (Z.pos (digits2_pos p) - 1) < 2 ^ k) as H by lia.
  apply Z.pow_lt_mono_r_iff in H; lia.
Qed.

Lemma Zdigits2_succ (m : Z) : 0 <= m -> Zdigits2 (m + 1) <= Zdigits2 m + 1.
Proof.
  intros Hm. pose proof (Zdigits2_ub m Hm). pose proof (Zdigits2_nonneg m).
  apply Zdigits2_le; [lia|]. rewrite Z.pow_add_r, Z.pow_1_r by lia. lia.
Qed.

Lemma shr_1_digits (mrs : shr_record) :
  0 <= shr_m mrs ->
  0 <= shr_m (shr_1 mrs)
  /\ Zdigits2 (shr_m (shr_1 mrs)) = Z.max (Zdigits2 (shr_m mrs) - 1) 0.
Proof.
  destruct mrs as [m r s]. cbn [shr_m]. intros Hm.
  destruct m as [|[p|p|]|p]; cbn [shr_1 shr_m Zdigits2 digits2_pos];
    rewrite ?Pos2Z.inj_succ; lia.
Qed.

Lemma iter_shr_1_digits (p : positive) :
  forall mrs, 0 <= shr_m mrs ->
    0 <= shr_m (SpecFloat.iter_pos shr_1 p mrs)
    /\ Zdigits2 (shr_m (SpecFloat.iter_pos shr_1 p mrs))
       = Z.max (Zdigits2 (shr_m mrs) - Z.pos p) 0.
Proof.
  induction p as [p IH|p IH|]; intros mrs Hm; cbn [SpecFloat.iter_pos].
  - destruct (shr_1_digits mrs Hm) as [H1 E1].
    destruct (IH _ H1) as [H2 E2]. destruct (IH _ H2) as [H3 E3].
    split; [done|]. rewrite E3, E2, E1, Pos2Z.inj_xI. lia.
  - destruct (IH _ Hm) as [H2 E2]. destruct (IH _ H2) as [H3 E3].
    split; [done|]. rewrite E3, E2, Pos2Z.inj_xO. lia.
  - by apply shr_1_digits.
Qed.

Lemma shr_m_of_loc (m : Z) (l : location) : shr_m (shr_record_of_loc m l) = m.
Proof. by destruct l as [|[]]. Qed.

Lemma shr_fexp_bound (m e : Z) (l : location) :
  0 <= m ->
  0 <= shr_m (shr_fexp 53 1024 m e l).1
  /\ (shr_fexp 53 1024 m e l).2 = Z.max e (fexp 53 1024 (Zdigits2 m + e))
  /\ Zdigits2 (shr_m (shr_fexp 53 1024 m e l).1) + (shr_fexp 53 1024 m e l).2
     <= Z.max (Zdigits2 m + e) (shr_fexp 53 1024 m e l).2.
Proof.
  intros Hm. unfold shr_fexp, shr.
  destruct (fexp 53 1024 (Zdigits2 m + e) - e) as [|p|p] eqn:Ek;
    cbn [fst snd]; rewrite ?shr_m_of_loc.
  - repeat split; lia.
  - destruct (iter_shr_1_digits p (shr_record_of_loc m l)) as [H E];
      [by rewrite shr_m_of_loc|].
    rewrite shr_m_of_loc in E. rewrite E. repeat split; lia.
  - repeat split; lia.
Qed.

Lemma round_nearest_even_bound (m : Z) (l : location) :
  round_nearest_even m l = m \/ round_nearest_even m l = m + 1.
Proof.
  destruct l as [|[]]; simpl; auto. destruct (Z.even m); auto.
Qed.

Lemma fexp_le (x : Z) : x <= 1024 -> fexp 53 1024 x <= 971.
Proof. unfold fexp, emin. lia. Qed.

(** Rounding a mantissa whose value is below [2^1023] gives a finite
    number. *)
Lemma binary_round_aux_finite (sx : bool) (mx ex : Z) (lx : location) :
  0 <= mx -> ex <= 971 -> Zdigits2 mx + ex <= 1023 ->
  is_finite_SF (binary_round_aux 53 1024 sx mx ex lx) = true.
Proof.
  intros Hm He Hd. unfold binary_round_aux.
  destruct (shr_fexp_bound mx ex lx Hm) as (H1 & E1 & D1).
  destruct (shr_fexp 53 1024 mx ex lx) as [mrs1 e1]. cbn [fst snd] in *.
  set (m2 := round_nearest_even (shr_m mrs1) (loc_of_shr_record mrs1)).
  assert (Hm2 : 0 <= m2 /\ Zdigits2 m2 <= Zdigits2 (shr_m mrs1) + 1).
  { unfold m2.
    destruct (round_nearest_even_bound (shr_m mrs1) (loc_of_shr_record mrs1))
      as [->| ->]; [lia|].
    split; [lia|by apply Zdigits2_succ]. }
  destruct Hm2 as [Hm2 Dm2].
  destruct (shr_fexp_bound m2 e1 loc_Exact Hm2) as (H3 & E3 & _).
  destruct (shr_fexp 53 1024 m2 e1 loc_Exact) as [mrs3 e3]. cbn [fst snd] in *.
  assert (He1 : e1 <= 971).
  { rewrite E1. pose proof (fexp_le (Zdigits2 mx + ex)). lia. }
  assert (He3 : e3 <= 971).
  { rewrite E3. pose proof (fexp_le (Zdigits2 m2 + e1)). lia. }
  destruct (shr_m mrs3) as [|p|p]; [done| |lia].
  change (1024 - 53) with 971. by rewrite (proj2 (Z.leb_le _ _) He3).
Qed.

Lemma div_eucl_div_mod (a b : Z) : Z.div_eucl a b = (a / b, a mod b).
Proof. unfold Z.div, Z.modulo. by destruct (Z.div_eucl a b). Qed.

(** The quotient of two positive integers before rounding. *)
Lemma SFdiv_core_bound (pn pd : positive) :
  let '(q, e, _) := SFdiv_core_binary 53 1024 (Z.pos pn) 0 (Z.pos pd) 0 in
  0 <= q /\ e <= 0
  /\ Zdigits2 q + e
     <= Z.max (Z.pos (digits2_pos pn) - Z.pos (digits2_pos pd) + 1) 0.
Proof.
  unfold SFdiv_core_binary. cbn [Zdigits2].
  set (d1 := Z.pos (digits2_pos pn)). set (d2 := Z.pos (digits2_pos pd)).
  set (e := Z.min (fexp 53 1024 (d1 + 0 - (d2 + 0))) (0 - 0)).
  assert (He : e <= 0) by (unfold e; lia).
  set (m' := match 0 - 0 - e with
             | 0 => Z.pos pn
             | Z.pos _ => Z.shiftl (Z.pos pn) (0 - 0 - e)
             | Z.neg _ => 0
             end).
  assert (Hm' : m' = Z.pos pn * 2 ^ (- e)).
  { unfold m'. destruct (0 - 0 - e) as [|p|p] eqn:Es.
    - replace (- e) with 0 by lia. lia.
    - rewrite Z.shiftl_mul_pow2 by lia. f_equal. f_equal. lia.
    - lia. }
  rewrite div_eucl_div_mod.
  pose proof (digits2_pos_bounds pn) as [_ Hn]. fold d1 in Hn.
  pose proof (digits2_pos_bounds pd) as [Hd _]. fold d2 in Hd.
  assert (Hd1 : 0 < d1) by (unfold d1; lia).
  assert (Hd2 : 0 < d2) by (unfold d2; lia).
  assert (Hp : 0 < 2 ^ (- e)) by (apply Z.pow_pos_nonneg; lia).
  assert (Hm'pos : 0 <= m') by (rewrite Hm'; lia).
  assert (Hq : 0 <= m' / Z.pos pd) by (apply Z.div_pos; lia).
  split; [exact Hq|]. split; [exact He|].
  assert (Hqd : m' / Z.pos pd * Z.pos pd <= m').
  { rewrite Z.mul_comm. apply Z.mul_div_le. lia. }
  assert (Hub : m' < 2 ^ (d1 - e)).
  { rewrite Hm'. replace (d1 - e) with (d1 + - e) by lia.
    rewrite Z.pow_add_r by lia. nia. }
  assert (Hlow : m' / Z.pos pd * 2 ^ (d2 - 1) < 2 ^ (d1 - e)).
  { assert (m' / Z.pos pd * 2 ^ (d2 - 1) <= m' / Z.pos pd * Z.pos pd) by nia.
    lia. }
  destruct (decide (m' / Z.pos pd = 0)) as [E0|E0].
  { rewrite E0. simpl. lia. }
  assert (Hq1 : 1 <= m' / Z.pos pd) by lia.
  assert (HK : d2 - 1 < d1 - e).
  { apply (Z.pow_lt_mono_r_iff 2); [lia|lia|]. 
    assert (0 < 2 ^ (d2 - 1)) by (apply Z.pow_pos_nonneg; lia). nia. }
  assert (Zdigits2 (m' / Z.pos pd) <= d1 - e - d2 + 1); [|lia].
  apply Zdigits2_le; [lia|]. split; [lia|].
  assert (E : 2 ^ (d1 - e) = 2 ^ (d1 - e - d2 + 1) * 2 ^ (d2 - 1)).
  { rewrite <- Z.pow_add_r by lia. f_equal. lia. }
  rewrite E in Hlow.
  assert (0 < 2 ^ (d2 - 1)) by (apply Z.pow_pos_nonneg; lia). nia.
Qed.

Lemma fdiv_finite (n d : Z) :
  d <> 0 -> Z.abs n < 2 ^ 1022 -> is_finite_SF (fdiv n d) = true.
Proof.
  intros Hd Hn. unfold fdiv.
  destruct n as [|pn|pn]; [by destruct d| |];
    (destruct d as [|pd|pd]; [done| |]); cbn [Z2SF SFdiv];
    pose proof (SFdiv_core_bound pn pd) as H;
    destruct (SFdiv_core_binary 53 1024 (Z.pos pn) 0 (Z.pos pd) 0) as [[q e] l];
    destruct H as (Hq & He & Hb);
    (apply binary_round_aux_finite; [done|lia|]);
    assert (Z.pos (digits2_pos pn) <= 1022)
      by (apply (Zdigits2_le (Z.pos pn)); lia);
    assert (0 < Z.pos (digits2_pos pd)) by lia; lia.
Qed.

(** True division of a numerator below [2^1022] in absolute value by a
    non-zero integer does not raise. *)
Lemma int_true_div_ok (n d : Z) :
  d <> 0 -> Z.abs n < 2 ^ 1022 -> exists q, int_true_div n d = Ok q.
Proof.
  intros Hd Hn. unfold int_true_div.
  destruct (Z.eqb_spec d 0); [done|].
  pose proof (fdiv_finite n d Hd Hn) as H.
  destruct (fdiv n d); try done; eauto.
Qed.

Lemma ratio_ok (n d : Z) :
  Z.abs n < 2 ^ 1022 -> exists x, ratio n d = Ok x.
Proof.
  intros Hn. unfold ratio. destruct (Z.eqb_spec d 0); [eauto|].
  destruct (int_true_div_ok n d) as [q ->]; eauto.
Qed.

Lemma pow10_300_lt : 2 * 10 ^ 300 < 2 ^ 1022.
Proof. by vm_compute. Qed.

(** X13. A run on integer counters that are all below [10^300] in absolute
    value always completes: it raises neither [TypeError] nor
    [OverflowError]. *)
Theorem moderate_input_completes (text : string) (csv : option csv_file) :
  moderate (parse_kv_lines text) = true ->
  exists out csv', main text csv = Ok (out, csv').
Proof.
  unfold moderate. rewrite andb_true_iff. intros [Hi Hb].
  set (d := parse_kv_lines text) in *.
  assert (HB : forall k, k ∈ known_keys -> Z.abs (int_of d k) < 10 ^ 300).
  { intros k Hk. rewrite forallb_forall in Hb.
    apply Z.ltb_lt, Hb. by apply list_elem_of_In. }
  pose proof pow10_300_lt as Hp.
  assert (Hk : forall k, k ∈ known_keys -> Z.abs (int_of d k) < 2 ^ 1022).
  { intros k Hk. specialize (HB k Hk). lia. }
  assert (Hs : forall k1 k2, k1 ∈ known_keys -> k2 ∈ known_keys ->
                 Z.abs (int_of d k1 + int_of d k2) < 2 ^ 1022).
  { intros k1 k2 H1 H2. pose proof (HB k1 H1). pose proof (HB k2 H2). lia. }
  unfold main. fold d.
  assert (exists r, compute_rates (load_fields d) = Ok r) as [r Hr].
  { rewrite (load_fields_integer d Hi), compute_rates_int.
    rewrite <- (load_fields_integer d Hi), bus_utilization_of_integer by done.
    destruct (ratio_ok (int_of d "read_hits" + int_of d "write_hits")
                (int_of d "total_reads" + int_of d "total_writes")) as [x1 ->];
      [apply Hs; unfold known_keys; set_solver|].
    destruct (ratio_ok (int_of d "read_misses" + int_of d "write_misses")
                (int_of d "total_reads" + int_of d "total_writes")) as [x2 ->];
      [apply Hs; unfold known_keys; set_solver|].
    destruct (ratio_ok (int_of d "coherency_invalidates")
                (int_of d "total_reads")) as [x3 ->];
      [apply Hk; unfold known_keys; set_solver|].
    cbn [mbind result_bind].
    destruct (d !! "cycles_bus_busy"); [|by eexists].
    destruct (ratio_ok (int_of d "cycles_bus_busy") (int_of d "cycles"))
      as [x4 ->]; [apply Hk; unfold known_keys; set_solver|].
    by eexists. }
  rewrite Hr. by eexists _, _.
Qed.

Lemma moderate_input_completes_witness :
  exists out csv', main spec_example None = Ok (out, csv').
Proof.
  apply (moderate_input_completes spec_example None).
  vm_compute. reflexivity.
Defined.

(** ** Reading back the decimal text of an integer *)

Lemma digit_val_digit (c : ascii) :
  is_digit c = true -> digit_val c = Some (default 0 (digit_val c)).
Proof. unfold is_digit, digit_val. by intros ->. Qed.

Lemma int_digits_all_digits (ds : string) :
  all_chars is_digit ds = true ->
  forall acc cnt,
    int_digits acc cnt false ds
    = Some (dec_value acc ds, (cnt + String.length ds)%nat).
Proof.
  induction ds as [|c ds IH]; intros Hd acc cnt.
  - simpl. by rewrite Nat.add_0_r.
  - simpl in Hd. apply andb_true_iff in Hd as [Hc Hd].
    cbn [int_digits dec_value String.length].
    rewrite (digit_val_digit c Hc). cbn [default].
    rewrite IH by done. do 2 f_equal. lia.
Qed.

Lemma int_body_all_digits (ds : string) :
  ds <> EmptyString -> all_chars is_digit ds = true ->
  (String.length ds <= int_max_str_digits)%nat ->
  int_body ds = Some (dec_value 0 ds).
Proof.
  destruct ds as [|c ds]; [done|]. intros _ Hd Hl.
  simpl in Hd. apply andb_true_iff in Hd as [Hc Hd].
  cbn [int_body dec_value]. rewrite (digit_val_digit c Hc). cbn [default].
  rewrite int_digits_all_digits by done.
  replace (10 * 0 + default 0 (digit_val c)) with (default 0 (digit_val c)) by lia.
  cbn [String.length] in Hl.
  assert ((1 + String.length ds <=? int_max_str_digits)%nat = true) as ->
    by (apply Nat.leb_le; lia).
  done.
Qed.

Lemma digit_not_space (c : ascii) :
  is_digit c = true ->
  is_int_space c = false /\ is_whitespace c = false
  /\ Ascii.eqb c "+" = false /\ Ascii.eqb c "-" = false.
Proof.
  unfold is_digit, is_int_space, is_whitespace, in_range. intros H.
  apply andb_true_iff in H as [H1 H2].
  apply N.leb_le in H1. apply N.leb_le in H2.
  repeat split.
  - repeat (apply orb_false_iff; split); apply andb_false_iff;
      rewrite !N.leb_gt; lia.
  - repeat (apply orb_false_iff; split); apply andb_false_iff;
      rewrite !N.leb_gt; lia.
  - destruct (Ascii.eqb_spec c "+") as [->|]; [|done]. vm_compute in H1. done.
  - destruct (Ascii.eqb_spec c "-") as [->|]; [|done]. vm_compute in H1. done.
Qed.

Lemma rstrip_no_ws (ws : ascii -> bool) (s : string) :
  all_chars (fun c => negb (ws c)) s = true -> rstrip_by ws s = s.
Proof.
  induction s as [|c s IH]; [done|]. simpl.
  intros H. apply andb_true_iff in H as [Hc H]. rewrite (IH H).
  apply negb_true_iff in Hc. rewrite Hc. by destruct s.
Qed.

Lemma all_chars_impl (p q : ascii -> bool) (s : string) :
  (forall c, p c = true -> q c = true) ->
  all_chars p s = true -> all_chars q s = true.
Proof.
  intros Hpq. induction s as [|c s IH]; [done|]. simpl.
  intros H. apply andb_true_iff in H as [Hc H].
  by rewrite (Hpq c Hc), IH.
Qed.

Lemma strips_digits (ws : ascii -> bool) (ds : string) :
  (forall c, is_digit c = true -> ws c = false) ->
  all_chars is_digit ds = true ->
  rstrip_by ws (lstrip_by ws ds) = ds.
Proof.
  intros Hws Hd.
  assert (Hn : all_chars (fun c => negb (ws c)) ds = true).
  { apply (all_chars_impl is_digit); [|done].
    intros c Hc. by rewrite (Hws c Hc). }
  rewrite lstrip_id; [by apply rstrip_no_ws|].
  destruct ds as [|c ds]; [done|]. simpl in *.
  by apply andb_true_iff in Hn as [-> _].
Qed.

Lemma strips_minus_digits (ws : ascii -> bool) (ds : string) :
  ws "-"%char = false ->
  (forall c, is_digit c = true -> ws c = false) ->
  all_chars is_digit ds = true ->
  rstrip_by ws (lstrip_by ws (String "-" ds)) = String "-" ds.
Proof.
  intros Hm Hws Hd. cbn [lstrip_by]. rewrite Hm.
  apply rstrip_no_ws. simpl. rewrite Hm. simpl.
  apply (all_chars_impl is_digit); [|done].
  intros c Hc. by rewrite (Hws c Hc).
Qed.

Lemma pretty_length_bound (z : Z) (ds : string) :
  0 < z -> z < 10 ^ Z.of_nat int_max_str_digits ->
  10 ^ (Z.of_nat (String.length ds) - 1) <= z ->
  (String.length ds <= int_max_str_digits)%nat.
Proof.
  intros Hz Hub Hlb.
  destruct (le_lt_dec (String.length ds) int_max_str_digits) as [|Hgt];
    [done|exfalso].
  assert (10 ^ Z.of_nat int_max_str_digits
          <= 10 ^ (Z.of_nat (String.length ds) - 1)).
  { apply Z.pow_le_mono_r; lia. }
  lia.
Qed.

Lemma py_int_pretty_nonneg (z : Z) :
  0 <= z < 10 ^ Z.of_nat int_max_str_digits ->
  py_int (pretty z) = Some z /\ strip (pretty z) = pretty z
  /\ exists c r, pretty z = String c r /\ is_digit c = true
                 /\ all_chars is_digit r = true
                 /\ int_body (String c r) = Some z.
Proof.
  intros [Hz Hub].
  destruct (pretty_nonneg_digits z Hz) as (ds & E & Hne & Hd & Hv & Hlb).
  rewrite E.
  assert (Hl : (String.length ds <= int_max_str_digits)%nat).
  { destruct (decide (z = 0)) as [->|Hn0].
    - rewrite <- E. vm_compute. lia.
    - apply (pretty_length_bound z); [lia|done|apply Hlb; lia]. }
  pose proof (int_body_all_digits ds Hne Hd Hl) as Hb. rewrite Hv in Hb.
  destruct ds as [|c r]; [done|].
  pose proof Hd as Hd'. simpl in Hd'. apply andb_true_iff in Hd' as [Hc Hr].
  destruct (digit_not_space c Hc) as (_ & _ & Hp & Hm).
  split; [|split].
  - unfold py_int.
    rewrite (strips_digits is_int_space) by (done || apply digit_not_space).
    by rewrite Hp, Hm.
  - unfold strip. apply strips_digits; [apply digit_not_space|done].
  - by exists c, r.
Qed.

(** X8. [int] reads the decimal text of an integer back as that integer: a
    line [key=str(n)] stores the integer [n], for every [n] of at most
    [int_max_str_digits] digits. *)
Theorem parse_line_reads_back_integer
    (d : gmap string mval) (key : string) (n : Z) :
  Z.abs n < 10 ^ Z.of_nat int_max_str_digits ->
  has_eq key = false -> startswith_hash (strip key) = false ->
  py_int (py_str (MInt n)) = Some n
  /\ parse_line d (key +:+ String "=" (py_str (MInt n)))
     = <[strip key := MInt n]> d.
Proof.
  intros Hn Hk Hh. cbn [py_str].
  assert (H : py_int (pretty n) = Some n /\ strip (pretty n) = pretty n).
  { destruct n as [|p|p].
    - clear Hn. split; vm_compute; reflexivity.
    - destruct (py_int_pretty_nonneg (Z.pos p) ltac:(lia)) as (H1 & H2 & _).
      clear Hn. split; assumption.
    - destruct (py_int_pretty_nonneg (Z.pos p) ltac:(lia))
        as (_ & _ & c & r & E & Hc & Hr & Hb).
      clear Hn.
      change (pretty (Z.neg p)) with ("-" +:+ pretty (Z.pos p)).
      rewrite E. change ("-" +:+ String c r) with (String "-" (String c r)).
      assert (Hd : all_chars is_digit (String c r) = true)
        by (simpl; by rewrite Hc, Hr).
      split.
      + unfold py_int.
        rewrite (strips_minus_digits is_int_space _ eq_refl
                   (fun c Hc => proj1 (digit_not_space c Hc)) Hd).
        change (Ascii.eqb "-" "+") with false.
        change (Ascii.eqb "-" "-") with true. cbv iota.
        by rewrite Hb.
      + unfold strip.
        apply strips_minus_digits; [reflexivity|apply digit_not_space|exact Hd]. }
  clear Hn.
  destruct H as [H1 H2]. split; [exact H1|].
  rewrite parse_line_at_eq by done. by rewrite Hh, H2, H1.
Qed.

Lemma parse_line_reads_back_integer_witness :
  parse_line ∅ ("cycles" +:+ String "=" (py_str (MInt (-42))))
  = <["cycles" := MInt (-42)]> ∅.
Proof.
  apply (parse_line_reads_back_integer ∅ "cycles" (-42)).
  - apply Z.ltb_lt. vm_compute. reflexivity.
  - reflexivity.
  - reflexivity.
Defined.

(** ** Appending a line *)

Lemma splitlines_single (c : string) :
  no_linebreak c = true -> c <> EmptyString -> splitlines c = [c].
Proof.
  unfold no_linebreak. induction c as [|a c IH]; [done|]. intros Hc _.
  simpl in Hc. apply andb_true_iff in Hc as [Ha Hc].
  apply negb_true_iff in Ha. cbn [splitlines]. rewrite Ha.
  destruct c as [|b c]; [done|]. by rewrite IH.
Qed.

(** X5. Appending the line [key=value] to an input sets that key and leaves
    every other key of the record as it was. *)
Theorem parse_kv_lines_append_line (text key value : string) :
  has_eq key = false -> startswith_hash (strip key) = false ->
  no_linebreak (key +:+ String "=" value) = true ->
  parse_kv_lines (text +:+ nl +:+ key +:+ String "=" value)
  = <[strip key := match py_int (strip value) with
                   | Some n => MInt n
                   | None => MStr (strip value)
                   end]> (parse_kv_lines text).
Proof.
  intros Hk Hh Hn.
  assert (Hc : forall t2, parse_kv_lines (text +:+ nl +:+ t2)
                          = parse_kv_lines t2 ∪ parse_kv_lines text).
  { intros t2. rewrite <- (parse_kv_lines_final_nl text). unfold parse_kv_lines.
    rewrite (nl_append t2).
    rewrite (splitlines_break_app LF t2 LF_linebreak eq_refl text).
    apply parse_lines_app. }
  rewrite Hc.
  unfold parse_kv_lines at 1.
  rewrite splitlines_single by (done || apply app_String_nonempty).
  unfold parse_lines. cbn [foldl]. rewrite parse_line_at_eq by done.
  rewrite Hh.
  destruct (py_int (strip value));
    by rewrite <- insert_union_l, (left_id_L ∅ (∪)).
Qed.

Lemma parse_kv_lines_append_line_witness :
  parse_kv_lines (lines_text ["cycles=1"; "read_hits=2"] +:+ nl +:+ "cycles" +:+ String "=" "7")
  = <["cycles" := MInt 7]> (parse_kv_lines (lines_text ["cycles=1"; "read_hits=2"])).
Proof.
  apply (parse_kv_lines_append_line
           (lines_text ["cycles=1"; "read_hits=2"]) "cycles" "7"); reflexivity.
Defined.

(** ** Raw strings among the summed counters *)

Lemma py_add_mixed (a b : mval) :
  xorb (is_raw (Some a)) (is_raw (Some b)) = true ->
  py_add a b = Raise TypeError.
Proof. by destruct a, b. Qed.

Lemma is_raw_get (d : gmap string mval) (k : string) :
  is_raw (Some (get d k (MInt 0))) = is_raw (d !! k).
Proof. unfold get. by destruct (d !! k). Qed.

(** X12. The three sums come first in [main]: when one counter of a summed pair
    ([total_reads] and [total_writes], [read_hits] and [write_hits],
    [read_misses] and [write_misses]) is a raw string and the other is an
    integer or absent, the run ends in [TypeError], whatever the other
    fields are. *)
Theorem mixed_pair_raises_type_error (text : string) (csv : option csv_file) :
  let d := parse_kv_lines text in
  xorb (is_raw (d !! "total_reads")) (is_raw (d !! "total_writes"))
  || xorb (is_raw (d !! "read_hits")) (is_raw (d !! "write_hits"))
  || xorb (is_raw (d !! "read_misses")) (is_raw (d !! "write_misses")) = true ->
  main text csv = Raise TypeError.
Proof.
  intros d H. apply main_raise. fold d. unfold compute_rates, load_fields.
  cbn [total_reads total_writes read_hits write_hits read_misses write_misses].
  rewrite <- !is_raw_get in H.
  destruct (py_add (get d "total_reads" (MInt 0)) (get d "total_writes" (MInt 0)))
    as [acc|e] eqn:E1.
  2:{ apply py_add_raise in E1. by subst e. }
  destruct (py_add (get d "read_hits" (MInt 0)) (get d "write_hits" (MInt 0)))
    as [hits|e] eqn:E2.
  2:{ apply py_add_raise in E2. by subst e. }
  destruct (py_add (get d "read_misses" (MInt 0)) (get d "write_misses" (MInt 0)))
    as [misses|e] eqn:E3.
  2:{ apply py_add_raise in E3. by subst e. }
  exfalso. apply orb_true_iff in H as [H|H]; [apply orb_true_iff in H as [H|H]|];
    apply py_add_mixed in H; congruence.
Qed.

Lemma mixed_pair_raises_type_error_witness :
  main (lines_text ["write_hits = many"; "read_hits = 3"]) None = Raise TypeError.
Proof.
  apply (mixed_pair_raises_type_error
           (lines_text ["write_hits = many"; "read_hits = 3"]) None).
  vm_compute. reflexivity.
Defined.

(** * Part V: raw strings in the known fields *)

(** ** What a completed computation of the rates went through *)

Lemma compute_rates_ok_inv (f : fields) (r : rates) :
  compute_rates f = Ok r ->
  exists ta th tm,
    py_add (total_reads f) (total_writes f) = Ok ta
    /\ py_add (read_hits f) (write_hits f) = Ok th
    /\ py_add (read_misses f) (write_misses f) = Ok tm
    /\ safe_div th ta = Ok (cache_hit_rate r)
    /\ safe_div tm ta = Ok (cache_miss_rate r)
    /\ safe_div (coherency_invalidates f) (total_reads f)
       = Ok (coherency_miss_rate r)
    /\ bus_utilization_of f = Ok (bus_utilization r).
Proof.
  unfold compute_rates. intros H.
  destruct (py_add (total_reads f) (total_writes f)) as [ta|] eqn:E1;
    [|discriminate H].
  destruct (py_add (read_hits f) (write_hits f)) as [th|] eqn:E2;
    [|discriminate H].
  destruct (py_add (read_misses f) (write_misses f)) as [tm|] eqn:E3;
    [|discriminate H].
  cbn [mbind result_bind] in H.
  destruct (safe_div th ta) as [hit|] eqn:E4; [|discriminate H].
  destruct (safe_div tm ta) as [miss|] eqn:E5; [|discriminate H].
  cbn [mbind result_bind] in H.
  destruct (safe_div (coherency_invalidates f) (total_reads f)) as [coh|] eqn:E6;
    [|discriminate H].
  destruct (bus_utilization_of f) as [bus|] eqn:E7; [|discriminate H].
  cbn [mbind result_bind] in H. injection H as <-.
  by exists ta, th, tm.
Qed.

(** A sum with a raw string that does not raise is a string. *)
Lemma py_add_raw (a b c : mval) :
  py_add a b = Ok c -> is_raw (Some a) || is_raw (Some b) = true ->
  is_raw (Some c) = true.
Proof. destruct a, b; simpl; intros [= <-]; done. Qed.

(** A [safe_div] with a raw string that does not raise skipped the
    division. *)
Lemma safe_div_raw (n d : mval) (x : option spec_float) :
  safe_div n d = Ok x -> is_raw (Some n) || is_raw (Some d) = true ->
  x = None.
Proof.
  unfold safe_div. destruct (truthy d); [|by intros [= <-]].
  destruct n, d; simpl; done.
Qed.

(** ** The lines and cells of a counter *)

Lemma field_get (d : gmap string mval) (key : string) (i : nat) :
  numeric_keys !! i = Some key ->
  field key (load_fields d) = Some (get d key (MInt 0)).
Proof.
  intros Hk.
  do 8 (destruct i as [|i]; [injection Hk as <-; reflexivity|]).
  discriminate Hk.
Qed.

Lemma table_counter_line (f : fields) (r : rates) (key : string) (i : nat)
    (v : mval) :
  numeric_keys !! i = Some key -> field key f = Some v ->
  table f r !! (2 + i)%nat = Some (label key +:+ py_str v).
Proof.
  intros Hk Hv.
  do 8 (destruct i as [|i];
        [injection Hk as <-; injection Hv as <-; reflexivity|]).
  discriminate Hk.
Qed.

Lemma row_counter_cell (f : fields) (r : rates) (key : string) (i : nat)
    (v : mval) :
  numeric_keys !! i = Some key -> field key f = Some v ->
  writerow fieldnames (row f r) !! i = Some (cell_of_mval v).
Proof.
  intros Hk Hv. rewrite writerow_row.
  do 8 (destruct i as [|i];
        [injection Hk as <-; injection Hv as <-; reflexivity|]).
  discriminate Hk.
Qed.

Lemma numeric_key_column (key : string) (i : nat) :
  numeric_keys !! i = Some key -> fieldnames !! i = Some key.
Proof.
  intros Hk.
  do 8 (destruct i as [|i]; [injection Hk as <-; reflexivity|]).
  discriminate Hk.
Qed.

(** The appended row is the last record of the file. *)
Lemma main_ok_last (text : string) (csv : option csv_file)
    (out : list string) (csv' : csv_file) :
  main text csv = Ok (out, csv') ->
  exists r, compute_rates (load_fields (parse_kv_lines text)) = Ok r
    /\ out = table (load_fields (parse_kv_lines text)) r
    /\ last csv'
       = Some (writerow fieldnames (row (load_fields (parse_kv_lines text)) r)).
Proof.
  intros H. apply main_ok_inv in H as (r & Hr & -> & ->).
  exists r. split; [exact Hr|]. split; [reflexivity|].
  by rewrite !app_assoc, last_snoc.
Qed.

(** A rate that is null is printed as [N/A]. *)
Lemma table_null_rates (f : fields) (r : rates) :
  (cache_hit_rate r = None -> label "cache_hit_rate" +:+ "N/A" ∈ table f r)
  /\ (cache_miss_rate r = None -> label "cache_miss_rate" +:+ "N/A" ∈ table f r)
  /\ (coherency_miss_rate r = None ->
      label "coherency_miss_rate" +:+ "N/A" ∈ table f r)
  /\ (bus_utilization r = None -> label "bus_utilization" +:+ "N/A" ∈ table f r).
Proof.
  destruct (table_rates f r) as [counters ->].
  split; [|split; [|split]]; intros ->; apply elem_of_app; right.
  - by apply (list_elem_of_lookup_2 _ 1%nat).
  - by apply (list_elem_of_lookup_2 _ 2%nat).
  - by apply (list_elem_of_lookup_2 _ 3%nat).
  - by apply (list_elem_of_lookup_2 _ 4%nat).
Qed.

(** ** Runs with a raw string in a counter *)

(** The stored string is the trimmed text of the value, which [int]
    rejected. *)
Lemma parse_kv_lines_raw_value (text key s : string) :
  parse_kv_lines text !! key = Some (MStr s) -> strip s = s /\ py_int s = None.
Proof.
  assert (H : map_Forall well_formed_entry (parse_kv_lines text)).
  { unfold parse_kv_lines, parse_lines.
    generalize (splitlines text) as ls. intros ls.
    induction ls as [|l ls IH] using rev_ind; [apply map_Forall_empty|].
    rewrite foldl_app. by apply parse_line_well_formed. }
  intros E. by destruct (H key (MStr s) E) as (_ & _ & _ & ?).
Qed.

(** A completed computation never divided with a raw string: every rate
    whose expression uses a raw counter is null. *)
Ltac field_value H :=
  match type of H with
  | field _ ?f = Some ?v =>
      first [ change (Some (total_reads f) = Some v) in H
            | change (Some (read_hits f) = Some v) in H
            | change (Some (read_misses f) = Some v) in H
            | change (Some (total_writes f) = Some v) in H
            | change (Some (write_hits f) = Some v) in H
            | change (Some (write_misses f) = Some v) in H
            | change (Some (coherency_invalidates f) = Some v) in H
            | change (Some (cycles f) = Some v) in H ];
      injection H as H
  end.

Lemma raw_rates_null (f : fields) (r : rates) (key s : string) (i : nat) :
  numeric_keys !! i = Some key -> field key f = Some (MStr s) ->
  compute_rates f = Ok r ->
  Forall (fun name => label name +:+ "N/A" ∈ table f r) (rates_of key).
Proof.
  intros Hk Hv Hr.
  apply compute_rates_ok_inv in Hr
    as (ta & th & tm & E1 & E2 & E3 & E4 & E5 & E6 & E7).
  destruct (table_null_rates f r) as (T1 & T2 & T3 & T4).
  assert (Hacc : is_raw (Some (total_reads f)) || is_raw (Some (total_writes f))
                 = true ->
                 cache_hit_rate r = None /\ cache_miss_rate r = None).
  { intros H. apply (py_add_raw _ _ _ E1) in H.
    split; [apply (safe_div_raw _ _ _ E4)|apply (safe_div_raw _ _ _ E5)];
      rewrite H; apply orb_true_r. }
  assert (Hhit : is_raw (Some (read_hits f)) || is_raw (Some (write_hits f))
                 = true -> cache_hit_rate r = None).
  { intros H. apply (py_add_raw _ _ _ E2) in H.
    apply (safe_div_raw _ _ _ E4). by rewrite H. }
  assert (Hmiss : is_raw (Some (read_misses f)) || is_raw (Some (write_misses f))
                  = true -> cache_miss_rate r = None).
  { intros H. apply (py_add_raw _ _ _ E3) in H.
    apply (safe_div_raw _ _ _ E5). by rewrite H. }
  assert (Hcoh : is_raw (Some (coherency_invalidates f))
                 || is_raw (Some (total_reads f)) = true ->
                 coherency_miss_rate r = None).
  { apply (safe_div_raw _ _ _ E6). }
  assert (Hbus : is_raw (Some (cycles f)) = true -> bus_utilization r = None).
  { intros H. unfold bus_utilization_of in E7.
    destruct (cycles_bus_busy f) as [b|]; [|by injection E7].
    apply (safe_div_raw _ _ _ E7). rewrite H. apply orb_true_r. }
  do 8 (destruct i as [|i];
        [injection Hk as <-; field_value Hv;
         rewrite ?Hv, ?orb_true_r in *;
         match goal with
         | |- Forall _ ?l => let l' := eval vm_compute in l in change l with l'
         end;
         repeat first [apply Forall_nil_2|apply Forall_cons_2];
         first [apply T1|apply T2|apply T3|apply T4];
         first [by apply Hacc|by apply Hhit|by apply Hmiss|by apply Hcoh
               |by apply Hbus]|]).
  discriminate Hk.
Qed.

(** The sums come first: a raw string next to an integer in one of them
    ends the computation. *)
Lemma compute_rates_mixed_pair (d : gmap string mval) :
  xorb (is_raw (d !! "total_reads")) (is_raw (d !! "total_writes"))
  || xorb (is_raw (d !! "read_hits")) (is_raw (d !! "write_hits"))
  || xorb (is_raw (d !! "read_misses")) (is_raw (d !! "write_misses")) = true ->
  compute_rates (load_fields d) = Raise TypeError.
Proof.
  intros H. unfold compute_rates, load_fields.
  cbn [total_reads total_writes read_hits write_hits read_misses write_misses].
  rewrite <- !is_raw_get in H.
  destruct (py_add (get d "total_reads" (MInt 0)) (get d "total_writes" (MInt 0)))
    as [acc|e] eqn:E1.
  2:{ apply py_add_raise in E1. by subst e. }
  destruct (py_add (get d "read_hits" (MInt 0)) (get d "write_hits" (MInt 0)))
    as [hits|e] eqn:E2.
  2:{ apply py_add_raise in E2. by subst e. }
  destruct (py_add (get d "read_misses" (MInt 0)) (get d "write_misses" (MInt 0)))
    as [misses|e] eqn:E3.
  2:{ apply py_add_raise in E3. by subst e. }
  exfalso. apply orb_true_iff in H as [H|H]; [apply orb_true_iff in H as [H|H]|];
    apply py_add_mixed in H; congruence.
Qed.

Lemma raw_in_sum (d : gmap string mval) (key partner s : string) (i : nat) :
  numeric_keys !! i = Some key -> summed_with key = Some partner ->
  d !! key = Some (MStr s) -> is_raw (d !! partner) = false ->
  compute_rates (load_fields d) = Raise TypeError.
Proof.
  intros Hk Hp Hs Hn. apply compute_rates_mixed_pair.
  do 6 (destruct i as [|i];
        [injection Hk as <-; vm_compute in Hp; injection Hp as <-;
         rewrite Hs, Hn;
         cbn [is_raw xorb orb]; by rewrite ?orb_true_r|]).
  do 2 (destruct i as [|i]; [injection Hk as <-; vm_compute in Hp; discriminate Hp|]).
  discriminate Hk.
Qed.

(** With [total_reads=abc] the run ends in a [TypeError]; with the key
    absent it completes. *)
Lemma C1_counterexample :
  py_int "abc" = None
  /\ main (lines_text ["total_reads=abc"]) None = Raise TypeError
  /\ exists out, main (lines_text []) None = Ok out.
Proof.
  split; [reflexivity|]. split; [by apply main_raise|].
  eexists. vm_compute. reflexivity.
Qed.

(** C1 (amended). For the known numeric field in place [i] of the table and
    of the CSV columns.  When its key is absent the field is 0: a run that
    completes prints 0 on its table line and writes the integer 0 in its
    column.  When its key is present with a value that is not an integer
    the field is not coerced: it is the raw trimmed string, which [int]
    rejected.  A run that then completes prints that string on the table
    line of the field, writes it in the column of the field, and shows
    [N/A] for every rate computed from the field; and when the field is
    one counter of a sum whose other counter is an integer or absent, the
    run raises [TypeError]. *)
Theorem C1_raw_string_is_kept (text : string) (csv : option csv_file)
    (key : string) (i : nat) :
  numeric_keys !! i = Some key ->
  let d := parse_kv_lines text in
  fieldnames !! i = Some key
  /\ (d !! key = None ->
      field key (load_fields d) = Some (MInt 0)
      /\ forall out csv', main text csv = Ok (out, csv') ->
           out !! (2 + i)%nat = Some (label key +:+ "0")
           /\ exists written, last csv' = Some written
                /\ written !! i = Some (CInt 0))
  /\ (forall s, d !! key = Some (MStr s) ->
      (strip s = s /\ py_int s = None)
      /\ field key (load_fields d) = Some (MStr s)
      /\ (forall out csv', main text csv = Ok (out, csv') ->
           out !! (2 + i)%nat = Some (label key +:+ s)
           /\ (exists written, last csv' = Some written
                 /\ written !! i = Some (CStr s))
           /\ Forall (fun name => label name +:+ "N/A" ∈ out) (rates_of key))
      /\ (forall partner, summed_with key = Some partner ->
           is_raw (d !! partner) = false -> main text csv = Raise TypeError)).
Proof.
  intros Hk d. pose proof (field_get d key i Hk) as Hf. unfold get in Hf.
  split; [by apply numeric_key_column|]. split.
  - intros E. rewrite E in Hf. split; [exact Hf|].
    intros out csv' H. apply main_ok_last in H as (r & _ & -> & ->).
    split; [exact (table_counter_line _ r key i _ Hk Hf)|].
    eexists. split; [reflexivity|].
    exact (row_counter_cell _ r key i _ Hk Hf).
  - intros s E. rewrite E in Hf.
    split; [by apply (parse_kv_lines_raw_value text key)|].
    split; [exact Hf|]. split.
    + intros out csv' H. apply main_ok_last in H as (r & Hr & -> & ->).
      split; [exact (table_counter_line _ r key i _ Hk Hf)|].
      split; [|by apply (raw_rates_null _ r key s i)].
      eexists. split; [reflexivity|].
      exact (row_counter_cell _ r key i _ Hk Hf).
    + intros partner Hp Hn. apply main_raise.
      by apply (raw_in_sum d key partner s i).
Qed.

Lemma C1_witness :
  exists out csv',
    main (lines_text ["coherency_invalidates = abc"]) None = Ok (out, csv')
    /\ out !! 8%nat = Some "coherency_invalidates       abc"
    /\ (exists written, last csv' = Some written
          /\ written !! 6%nat = Some (CStr "abc"))
    /\ "coherency_miss_rate         N/A" ∈ out.
Proof.
  eexists _, _. split; [vm_compute; reflexivity|].
  destruct (C1_raw_string_is_kept
              (lines_text ["coherency_invalidates = abc"]) None
              "coherency_invalidates" 6 eq_refl) as (_ & _ & H).
  destruct (H "abc" ltac:(vm_compute; reflexivity)) as (_ & _ & H2 & _).
  destruct (H2 _ _ ltac:(vm_compute; reflexivity)) as (L & C & R).
  split; [exact L|]. split; [exact C|].
  exact (proj1 (Forall_cons_1 _ _ _ R)).
Defined.

(** ** [bus_utilization], whatever the record holds *)

Lemma cycles_falsy_truthy (d : gmap string mval) :
  cycles_falsy d <-> truthy (get d "cycles" (MInt 0)) = false.
Proof.
  unfold cycles_falsy, get.
  destruct (d !! "cycles") as [[y|s]|]; simpl.
  - rewrite negb_false_iff, Z.eqb_eq. split; [|intros ->; tauto].
    by intros [|[[= ->]|]].
  - rewrite negb_false_iff, bool_decide_eq_true. split; [|intros ->; tauto].
    by intros [|[|[= ->]]].
  - tauto.
Qed.

Lemma int_true_div_quotient (x y : Z) :
  y <> 0 -> (q ← int_true_div x y; Ok (Some q)) = quotient x y.
Proof.
  intros Hy. unfold int_true_div, quotient.
  rewrite (proj2 (Z.eqb_neq y 0) Hy). by destruct (fdiv x y).
Qed.

(** The value of a [bus_utilization] that was computed. *)
Lemma bus_utilization_of_ok (d : gmap string mval) (v : option spec_float) :
  bus_utilization_of (load_fields d) = Ok v -> v = bus_of_record d.
Proof.
  unfold bus_utilization_of, bus_of_record, load_fields, safe_div, get.
  cbn [cycles_bus_busy cycles].
  destruct (d !! "cycles_bus_busy") as [b|]; [|by intros [= <-]].
  destruct (d !! "cycles") as [[y|s]|]; cbn [default id truthy].
  - destruct (y =? 0) eqn:Ey; cbn [negb]; [intros [= <-]; by destruct b|].
    destruct b as [x|s]; [|done]. cbn [py_truediv]. unfold int_true_div.
    rewrite Ey. by destruct (fdiv x y); cbn [mbind result_bind]; intros [= <-].
  - destruct (negb (bool_decide (s = EmptyString)));
      [by destruct b|intros [= <-]; by destruct b].
  - cbn [Z.eqb negb]. intros [= <-]. by destruct b.
Qed.

(** With [cycles_bus_busy=abc] and [cycles=1000] the key is present, its
    value is not an integer, and [bus_utilization] is not null: the
    division raises [TypeError] and the run prints and writes nothing. *)
Lemma C3_counterexample :
  let text := lines_text ["cycles_bus_busy=abc"; "cycles=1000"] in
  parse_kv_lines text !! "cycles_bus_busy" = Some (MStr "abc")
  /\ bus_utilization_of (load_fields (parse_kv_lines text)) = Raise TypeError
  /\ bus_utilization_of (load_fields (parse_kv_lines text)) <> Ok None
  /\ main text None = Raise TypeError.
Proof.
  split; [vm_compute; reflexivity|]. split; [vm_compute; reflexivity|].
  split; [vm_compute; discriminate|]. by apply main_raise.
Qed.

(** C3 (amended). [bus_utilization] is null when the key [cycles_bus_busy]
    is absent, and when it is present, with any value, and [cycles] is 0,
    absent or the empty string.  When both are integers and [cycles] is
    not 0 it is the float quotient [cycles_bus_busy / cycles], and
    [OverflowError] when that quotient is out of range.  When
    [cycles_bus_busy] is present, [cycles] is not falsy and one of the two
    is a raw string, the division raises [TypeError] and the run does not
    complete: this case is not null.  So in a run that completes
    [bus_utilization] is the quotient exactly when [cycles_bus_busy] is
    present with an integer value and [cycles] is an integer other than 0,
    and null in every other case; it is what the last table line and the
    last CSV column show.  With [cycles_bus_busy = 0] and [cycles = 1000]
    it is the float 0.0, not null. *)
Theorem C3_bus_utilization (text : string) (csv : option csv_file) :
  let d := parse_kv_lines text in
  let bus := bus_utilization_of (load_fields d) in
  (d !! "cycles_bus_busy" = None -> bus = Ok None)
  /\ (is_Some (d !! "cycles_bus_busy") -> cycles_falsy d -> bus = Ok None)
  /\ (forall x y, d !! "cycles_bus_busy" = Some (MInt x) ->
                  d !! "cycles" = Some (MInt y) -> y <> 0 ->
                  bus = quotient x y)
  /\ (is_Some (d !! "cycles_bus_busy") -> ~ cycles_falsy d ->
      is_raw (d !! "cycles_bus_busy") || is_raw (d !! "cycles") = true ->
      bus = Raise TypeError /\ forall res, main text csv <> Ok res)
  /\ (forall out csv', main text csv = Ok (out, csv') ->
        bus = Ok (bus_of_record d)
        /\ last out = Some (label "bus_utilization" +:+ fmt_rate (bus_of_record d))
        /\ exists written, last csv' = Some written
             /\ last written = Some (cell_of_opt CFloat (bus_of_record d)))
  /\ (d !! "cycles_bus_busy" = Some (MInt 0) ->
      d !! "cycles" = Some (MInt 1000) ->
      bus = Ok (Some (S754_zero false))).
Proof.
  intros d bus.
  assert (Hraise : forall e, bus = Raise e -> forall res, main text csv <> Ok res).
  { intros e He [out csv'] H. apply main_ok_inv in H as (r & Hr & _).
    apply compute_rates_bus in Hr. fold d in Hr. fold bus in Hr. congruence. }
  assert (Hfalsy : forall b, d !! "cycles_bus_busy" = Some b -> cycles_falsy d ->
                             bus = Ok None).
  { intros b Hb Hc. apply cycles_falsy_truthy in Hc.
    unfold bus, bus_utilization_of, load_fields. cbn [cycles_bus_busy cycles].
    rewrite Hb. by apply safe_div_falsy. }
  split; [|split; [|split; [|split; [|split]]]].
  - intros Hb. unfold bus, bus_utilization_of, load_fields.
    cbn [cycles_bus_busy]. by rewrite Hb.
  - intros [b Hb]. by apply (Hfalsy b).
  - intros x y Hb Hc Hy. unfold bus, bus_utilization_of, load_fields, get.
    cbn [cycles_bus_busy cycles]. rewrite Hb, Hc. cbn [default id].
    rewrite safe_div_int. unfold ratio.
    rewrite (proj2 (Z.eqb_neq y 0) Hy). by apply int_true_div_quotient.
  - intros [b Hb] Hc Hraw.
    assert (Hbus : bus = Raise TypeError).
    { rewrite cycles_falsy_truthy in Hc. apply not_false_is_true in Hc.
      rewrite <- (is_raw_get d "cycles"), Hb in Hraw.
      unfold bus, bus_utilization_of, load_fields, safe_div.
      cbn [cycles_bus_busy cycles]. rewrite Hb, Hc.
      destruct b, (get d "cycles" (MInt 0)); done. }
    split; [exact Hbus|]. by apply (Hraise TypeError).
  - intros out csv' H. apply main_ok_last in H as (r & Hr & -> & ->).
    apply compute_rates_bus in Hr. fold d in Hr. fold bus in Hr.
    pose proof (bus_utilization_of_ok d _ Hr) as Hv. fold d.
    rewrite <- Hv. split; [exact Hr|]. split.
    + destruct (table_rates (load_fields d) r) as [counters ->].
      by rewrite (last_app_cons counters), !last_cons_cons.
    + eexists. split; [reflexivity|]. by rewrite writerow_row.
  - intros Hb Hc. unfold bus, bus_utilization_of, load_fields, get.
    cbn [cycles_bus_busy cycles]. by rewrite Hb, Hc.
Qed.

Lemma C3_witness :
  exists out csv',
    main (lines_text ["cycles_bus_busy=0"; "cycles=1000"]) None = Ok (out, csv')
    /\ bus_utilization_of
         (load_fields (parse_kv_lines (lines_text ["cycles_bus_busy=0"; "cycles=1000"])))
       = Ok (Some (S754_zero false))
    /\ last out = Some "bus_utilization             0.0000".
Proof.
  eexists _, _. split; [vm_compute; reflexivity|].
  destruct (C3_bus_utilization
              (lines_text ["cycles_bus_busy=0"; "cycles=1000"]) None)
    as (_ & _ & _ & _ & H & _).
  destruct (H _ _ ltac:(vm_compute; reflexivity)) as (B & L & _).
  split; [exact B|exact L].
Defined.
